(** * Deposit scan and credit: a model of [confirmed-native-extra.ts]

    The worker receives order ids from a queue, lists the transactions of the
    order's deposit address through the Etherscan API, keeps candidate sweep
    transactions and asks the internal ledger to credit each of them.

    The program is embedded function by function.  Everything outside the
    file (HTTP, database, ledger, logger) is reached through a [Context]
    record, as the source reaches it through [contextLazy]; effects are
    recorded as a list of events next to the outcome of the call. *)

From Stdlib Require Import List String Ascii ZArith QArith Lia Bool.
From Stdlib Require Import DecimalString HexadecimalString.
From Stdlib Require DecimalPos DecimalZ.
Import ListNotations.

#[local] Open Scope string_scope.
#[local] Open Scope Z_scope.
#[local] Open Scope list_scope.

(** ** Outcomes

    A call either returns a value or throws; a promise either resolves or
    rejects.  [await] turns the second pair into the first, so one type
    serves both. *)

Inductive result (A : Type) : Type :=
| Ok (a : A)
| Err (e : string).

Arguments Ok {A} a.
Arguments Err {A} e.

Definition is_ok {A} (r : result A) : bool :=
  match r with Ok _ => true | Err _ => false end.

(** ** JavaScript primitives used by the worker *)

Module Js.

(** [String.prototype.toLowerCase], on the ASCII letters.  Addresses are
    hexadecimal text, so no other letter occurs in them. *)
Definition lower_ascii (c : ascii) : ascii :=
  let n := nat_of_ascii c in
  if (Nat.leb 65 n && Nat.leb n 90)%bool then ascii_of_nat (n + 32) else c.

Fixpoint toLowerCase (s : string) : string :=
  match s with
  | EmptyString => EmptyString
  | String c s' => String (lower_ascii c) (toLowerCase s')
  end.

(** Truthiness of a string: only the empty string is falsy. *)
Definition truthy (s : string) : bool :=
  match s with EmptyString => false | String _ _ => true end.

(** The numbers the worker computes with: the result of [Number(text)]
    and of [Date.prototype.getTime].  A finite number is kept as the exact
    rational its literal denotes; a double holds every integer below 2^53
    exactly, which covers the milliseconds of any date. *)
Inductive number : Type :=
| NaN
| Infinity (negative : bool)
| Num (q : Q).

Definition ofZ (z : Z) : number := Num (inject_Z z).

(** White space and line terminators of [StrWhiteSpaceChar], in ASCII. *)
Definition isWhiteSpace (c : ascii) : bool :=
  let n := nat_of_ascii c in
  (Nat.eqb n 9 || Nat.eqb n 10 || Nat.eqb n 11 || Nat.eqb n 12 || Nat.eqb n 13
   || Nat.eqb n 32)%bool.

Fixpoint trimStart (s : string) : string :=
  match s with
  | EmptyString => EmptyString
  | String c s' => if isWhiteSpace c then trimStart s' else s
  end.

Fixpoint trimEnd (s : string) : string :=
  match s with
  | EmptyString => EmptyString
  | String c s' =>
      match trimEnd s' with
      | EmptyString => if isWhiteSpace c then EmptyString else String c EmptyString
      | t => String c t
      end
  end.

(** The value of a digit in the given radix, letters in either case. *)
Definition digitValue (radix : Z) (c : ascii) : option Z :=
  let n := Z.of_nat (nat_of_ascii c) in
  let v := if ((48 <=? n) && (n <=? 57))%bool then Some (n - 48)
           else if ((97 <=? n) && (n <=? 102))%bool then Some (n - 87)
           else if ((65 <=? n) && (n <=? 70))%bool then Some (n - 55)
           else None in
  match v with
  | Some d => if d <? radix then Some d else None
  | None => None
  end.

(** The longest run of digits at the head of the text: its value read on
    top of [acc], the number of digits read, and the text that follows. *)
Fixpoint readDigits (radix acc : Z) (count : nat) (s : string) : Z * nat * string :=
  match s with
  | EmptyString => (acc, count, s)
  | String c s' =>
      match digitValue radix c with
      | Some d => readDigits radix (acc * radix + d) (S count) s'
      | None => (acc, count, s)
      end
  end.

(** [mantissa * 10 ^ exponent] *)
Definition scale (mantissa exponent : Z) : Q :=
  if 0 <=? exponent then inject_Z (mantissa * 10 ^ exponent)
  else Qmake mantissa (Z.to_pos (10 ^ (- exponent))).

(** [ExponentPart], optional, up to the end of the text. *)
Definition exponentPart (s : string) : option Z :=
  match s with
  | EmptyString => Some 0
  | String c t =>
      if (Ascii.eqb c "e" || Ascii.eqb c "E")%bool then
        let '(negative, digits) :=
          match t with
          | String "-"%char u => (true, u)
          | String "+"%char u => (false, u)
          | _ => (false, t)
          end in
        match readDigits 10 0 0 digits with
        | (e, S _, EmptyString) => Some (if negative then - e else e)
        | _ => None
        end
      else None
  end.

(** [StrUnsignedDecimalLiteral]: [Infinity], or digits with an optional
    fraction and an optional exponent, one digit at least. *)
Definition unsignedDecimal (s : string) : number :=
  if String.eqb s "Infinity" then Infinity false
  else
    let '(whole, nWhole, s1) := readDigits 10 0 0 s in
    let '(mantissa, nFraction, s2) :=
      match s1 with
      | String "."%char t => readDigits 10 whole 0 t
      | _ => (whole, O, s1)
      end in
    match (nWhole + nFraction)%nat, exponentPart s2 with
    | S _, Some e => Num (scale mantissa (e - Z.of_nat nFraction))
    | _, _ => NaN
    end.

(** [NonDecimalIntegerLiteral]: binary, octal or hexadecimal digits after
    their prefix; [None] when the text has no such prefix. *)
Definition nonDecimal (s : string) : option number :=
  match s with
  | String "0"%char (String p digits) =>
      let radix :=
        if (Ascii.eqb p "x" || Ascii.eqb p "X")%bool then Some 16
        else if (Ascii.eqb p "o" || Ascii.eqb p "O")%bool then Some 8
        else if (Ascii.eqb p "b" || Ascii.eqb p "B")%bool then Some 2
        else None in
      match radix with
      | Some r =>
          Some match readDigits r 0 0 digits with
               | (v, S _, EmptyString) => ofZ v
               | _ => NaN
               end
      | None => None
      end
  | _ => None
  end.

Definition negate (a : number) : number :=
  match a with
  | NaN => NaN
  | Infinity negative => Infinity (negb negative)
  | Num q => Num (Qopp q)
  end.

(** [Number(s)], the conversion of [StringNumericLiteral]: blanks around
    the text are dropped; the empty text is 0; a literal may be decimal,
    with a sign, a fraction and an exponent, or binary, octal or
    hexadecimal without a sign; any other text is [NaN].  Blanks outside
    ASCII are not recognised, and the value is not rounded to a double. *)
Definition Number (s : string) : number :=
  let text := trimEnd (trimStart s) in
  match text with
  | EmptyString => ofZ 0
  | String c rest =>
      match nonDecimal text with
      | Some n => n
      | None =>
          if Ascii.eqb c "-" then negate (unsignedDecimal rest)
          else if Ascii.eqb c "+" then unsignedDecimal rest
          else unsignedDecimal text
      end
  end.

Definition isZero (q : Q) : bool := Qnum q =? 0.
Definition isNegative (q : Q) : bool := Qnum q <? 0.

(** [a * b] *)
Definition mul (a b : number) : number :=
  match a, b with
  | NaN, _ | _, NaN => NaN
  | Infinity x, Infinity y => Infinity (xorb x y)
  | Infinity x, Num q | Num q, Infinity x =>
      if isZero q then NaN else Infinity (xorb x (isNegative q))
  | Num x, Num y => Num (Qmult x y)
  end.

(** [a < b]: false as soon as one side is [NaN]. *)
Definition lt (a b : number) : bool :=
  match a, b with
  | NaN, _ | _, NaN => false
  | Infinity x, Infinity y => (x && negb y)%bool
  | Infinity x, Num _ => x
  | Num _, Infinity y => negb y
  | Num x, Num y => Qnum x * QDen y <? Qnum y * QDen x
  end.

(** [a <= b]: false as soon as one side is [NaN]. *)
Definition le (a b : number) : bool :=
  match a, b with
  | NaN, _ | _, NaN => false
  | _, _ => negb (lt b a)
  end.

(** [String(n)] for an array length. *)
Definition string_of_nat (n : nat) : string :=
  DecimalString.NilZero.string_of_uint (Nat.to_uint n).

End Js.

(** ** The part of ethers (v5) the worker calls *)

Module Ethers.

(** Text of an integer, as [BigNumber.prototype.toString] prints it. *)
Definition string_of_Z (z : Z) : string :=
  DecimalString.NilZero.string_of_int (Z.to_int z).

(** [/^-?[0-9]+$/] and the integer it denotes. *)
Definition decimal_of_string (s : string) : option Z :=
  option_map Z.of_int (DecimalString.NilZero.int_of_string s).

(** The integer of a text with the prefix [0x], an optional minus sign
    before it, and hexadecimal digits in either case.  The pattern of
    [BigNumber.from] lets the prefix [0X] through as well, but the object
    it then builds makes the first comparison or arithmetic on it throw;
    every big number of this file is used at once, so that text is not read
    as a number here. *)
Definition hex_of_string (s : string) : option Z :=
  let digits (t : string) :=
    match t with
    | String "0"%char (String "x"%char h) =>
        option_map Z.of_hex_uint
          (HexadecimalString.NilZero.uint_of_string (Js.toLowerCase h))
    | _ => None
    end in
  match s with
  | String "-"%char t => option_map Z.opp (digits t)
  | t => digits t
  end.

(** [BigNumber.from(text)]: hexadecimal with prefix, else decimal, else
    an argument error is thrown. *)
Definition BigNumber_from (s : string) : result Z :=
  match hex_of_string s with
  | Some z => Ok z
  | None =>
      match decimal_of_string s with
      | Some z => Ok z
      | None => Err "invalid BigNumber string"
      end
  end.

Fixpoint zeros (n : nat) : string :=
  match n with O => "" | S n' => String "0" (zeros n') end.

(** Left padding of the fraction with zeros up to [width] digits. *)
Definition pad_left (width : nat) (s : string) : string :=
  (zeros (width - String.length s) ++ s)%string.

(** The text without its trailing zeros; [None] when it is zeros only. *)
Fixpoint strip_zeros (s : string) : option string :=
  match s with
  | EmptyString => None
  | String c s' =>
      match strip_zeros s' with
      | Some t => Some (String c t)
      | None => if Ascii.eqb c "0" then None else Some (String c EmptyString)
      end
  end.

(** First group of the match that drops the trailing zeros of a padded
    fraction: the digits up to the last one that is not zero, or a single
    zero when there is none. *)
Definition fraction_digits (s : string) : string :=
  match strip_zeros s with Some t => t | None => "0" end.

(** [formatFixed(value, decimals)] of a big number. *)
Definition formatFixed (value : Z) (decimals : nat) : string :=
  let multiplier := 10 ^ Z.of_nat decimals in
  let negative := value <? 0 in
  let value := if negative then value * -1 else value in
  let fraction := pad_left decimals (string_of_Z (value mod multiplier)) in
  let fraction := fraction_digits fraction in
  let whole := string_of_Z (value / multiplier) in
  let value := match decimals with
               | O => whole
               | _ => (whole ++ "." ++ fraction)%string
               end in
  if negative then ("-" ++ value)%string else value.

(** [ethers.utils.formatEther(wei)] = [formatUnits(wei, 18)]; the argument
    goes through [BigNumber.from] first. *)
Definition formatEther (wei : string) : result string :=
  match BigNumber_from wei with
  | Ok v => Ok (formatFixed v 18)
  | Err e => Err e
  end.

End Ethers.

(** ** String arithmetic of the shared package *)

Module ns.

(** Modelled from the spec: [ns] of the package [@sideshift/shared], which
    the worker imports and whose code is not in this file.  The source
    calls it a wrapper of bignumber.js for arithmetic on strings; the
    specification asks for exact arbitrary-precision arithmetic on the
    feed's numeric strings in base units.  Operands are integer numerals;
    anything else gives the text [NaN], as bignumber.js prints an invalid
    number. *)
Definition lift2 (op : Z -> Z -> Z) (a b : string) : string :=
  match Ethers.decimal_of_string a, Ethers.decimal_of_string b with
  | Some x, Some y => Ethers.string_of_Z (op x y)
  | _, _ => "NaN"
  end.

Definition sum : string -> string -> string := lift2 Z.add.
Definition times : string -> string -> string := lift2 Z.mul.

End ns.

(** ** Data *)

(** One element of [accountTxListResultSchema]: eight string fields. *)
Record EtherscanTransaction : Type := {
  hash : string;
  from : string;
  to : string;
  value : string;
  timeStamp : string;
  gasPrice : string;
  gas : string;
  gasUsed : string
}.

(** An element of the response before validation: a field is [None] when the
    key is missing or its value is not a string. *)
Record RawTransaction : Type := {
  raw_hash : option string;
  raw_from : option string;
  raw_to : option string;
  raw_value : option string;
  raw_timeStamp : option string;
  raw_gasPrice : option string;
  raw_gas : option string;
  raw_gasUsed : option string
}.

(** [data.result] of the Etherscan answer: a message or an array. *)
Inductive Payload : Type :=
| PString (s : string)
| PArray (items : list RawTransaction).

Record EtherscanData : Type := {
  status : string;
  payload : Payload
}.

Record DepositAddress : Type := { address : string }.

(** The [Order] entity; [createdAt] is [order.createdAt.getTime()], in
    milliseconds. *)
Record Order : Type := {
  id : string;
  createdAt : Z;
  depositAddress : option DepositAddress
}.

Record NativeMethod : Type := {
  methodId : string;
  asset : string
}.

(** Argument of [maybeInternalCreateDeposit]. *)
Record CreditRequest : Type := {
  orderId : string;
  txid : string;
  amount : string;
  uniqueId : string
}.

Inductive Level : Type := Info | Warn | Error.

(** What the worker does to the outside, in the order it does it. *)
Inductive Event : Type :=
| Log (level : Level) (message : string) (args : list string)
| HttpGet (url : string)
| CreateDeposit (request : CreditRequest).

(** The application context ([contextLazy]) and the clients the worker gets
    at start-up.  The three services answer as functions of the request. *)
Record Context : Type := {
  etherscanApiKey : string;
  account : string;
  network : string;
  nativeMethod : NativeMethod;
  findOneBy : string -> option Order;
  axios_get : string -> result EtherscanData;
  maybeInternalCreateDeposit : CreditRequest -> result bool;
  getEthereumNativeDepositUniqueId : NativeMethod -> string -> string
}.

(** ** Effects: events written, then an outcome *)

Definition M (A : Type) : Type := (list Event * result A)%type.

Definition ret {A} (a : A) : M A := ([], Ok a).

Definition throw {A} (e : string) : M A := ([], Err e).

Definition bind {A B} (m : M A) (f : A -> M B) : M B :=
  match m with
  | (t, Ok a) => let (t', r) := f a in (t ++ t', r)
  | (t, Err e) => (t, Err e)
  end.

Definition emit (ev : Event) : M unit := ([ev], Ok tt).

Definition lift {A} (r : result A) : M A := ([], r).

Notation "x <- m ;; k" := (bind m (fun x => k))
  (at level 61, m at next level, right associativity).
Notation "m ;;; k" := (bind m (fun _ => k))
  (at level 61, right associativity).

(** [try { ... } catch (error) { ... }]: what the body did before it threw
    stays done; the handler takes over from the error. *)
Definition try_catch {A} (body : M A) (handler : string -> M A) : M A :=
  match body with
  | (t, Ok a) => (t, Ok a)
  | (t, Err e) => let (t', r) := handler e in (t ++ t', r)
  end.

Definition events {A} (m : M A) : list Event := fst m.
Definition outcome {A} (m : M A) : result A := snd m.

Definition logger (level : Level) (message : string) (args : list string) : M unit :=
  emit (Log level message args).


(** ** The worker *)

(** [`Stored deposit. ${tx.hash}. ${valueAsEther} ${asset} for order ${orderId}`] *)
Definition storedDepositMessage (tx : EtherscanTransaction) (valueAsEther asset orderId : string) : string :=
  ("Stored deposit. " ++ hash tx ++ ". " ++ valueAsEther ++ " " ++ asset
     ++ " for order " ++ orderId)%string.

(** The settlement total of line 95:
    [ns.sum(tx.value, ns.times(tx.gas, tx.gasPrice))]. *)
Definition settlementTotal (tx : EtherscanTransaction) : string :=
  ns.sum (value tx) (ns.times (gas tx) (gasPrice tx)).

(** The call of [graphQLClient.maybeInternalCreateDeposit]: the request goes
    out, the ledger answers. *)
Definition createDeposit (ctx : Context) (request : CreditRequest) : M bool :=
  emit (CreateDeposit request) ;;; lift (maybeInternalCreateDeposit ctx request).

(** [scanTxId(tx, orderId)]: credits one transaction, and tells whether a
    deposit was stored. *)
Definition scanTxId (ctx : Context) (tx : EtherscanTransaction) (orderId : string) : M bool :=
  if negb (Js.truthy (to tx)) then
    (* Contract creation *)
    ret false
  else if negb (String.eqb (Js.toLowerCase (to tx)) (Js.toLowerCase (account ctx))) then
    (* Not the result of a sweep *)
    ret false
  else if negb (Js.truthy (gasPrice tx)) then
    throw "Unsupported EIP-1559 sweep transaction"
  else
    let total := settlementTotal tx in
    valueAsEther <- lift (Ethers.formatEther (value tx)) ;;
    totalAsEther <- lift (Ethers.formatEther total) ;;
    wasCredited <- createDeposit ctx
      {| orderId := orderId;
         txid := hash tx;
         amount := totalAsEther;
         uniqueId := getEthereumNativeDepositUniqueId ctx (nativeMethod ctx) (hash tx) |} ;;
    if negb wasCredited then
      ret false
    else
      logger Info (storedDepositMessage tx valueAsEther (asset (nativeMethod ctx)) orderId) [] ;;;
      ret true.

(** Validation of one array element against the object schema. *)
Definition parseTransaction (r : RawTransaction) : option EtherscanTransaction :=
  match raw_hash r, raw_from r, raw_to r, raw_value r,
        raw_timeStamp r, raw_gasPrice r, raw_gas r, raw_gasUsed r with
  | Some h, Some f, Some t, Some v, Some ts, Some gp, Some g, Some gu =>
      Some {| hash := h; from := f; to := t; value := v;
              timeStamp := ts; gasPrice := gp; gas := g; gasUsed := gu |}
  | _, _, _, _, _, _, _, _ => None
  end.

Fixpoint parseTransactions (items : list RawTransaction) : option (list EtherscanTransaction) :=
  match items with
  | [] => Some []
  | r :: rest =>
      match parseTransaction r, parseTransactions rest with
      | Some tx, Some txs => Some (tx :: txs)
      | _, _ => None
      end
  end.

(** [accountTxListResultSchema.parse(data.result)]: an array whose elements
    all validate, or a [ZodError]. *)
Definition accountTxListResultSchema_parse (p : Payload) : result (list EtherscanTransaction) :=
  match p with
  | PString _ => Err "ZodError"
  | PArray items =>
      match parseTransactions items with
      | Some txs => Ok txs
      | None => Err "ZodError"
      end
  end.

(** [data.result.length], of a string or of an array. *)
Definition payload_length (p : Payload) : nat :=
  match p with
  | PString s => String.length s
  | PArray items => List.length items
  end.

(** [`${data.result}`]: the string itself; an array prints its elements
    separated by commas, and an object prints as [[object Object]]. *)
Definition payload_text (p : Payload) : string :=
  match p with
  | PString s => s
  | PArray items => String.concat "," (map (fun _ => "[object Object]") items)
  end.

Definition txlistUrl (address apikey : string) : string :=
  ("https://api.etherscan.io/api?module=account&action=txlist&address=" ++ address
     ++ "&sort=desc&apikey=" ++ apikey)%string.

(** [getEtherScanTxListForAddress(address)] *)
Definition getEtherScanTxListForAddress (ctx : Context) (address : string)
  : M (list EtherscanTransaction) :=
  let url := txlistUrl address (etherscanApiKey ctx) in
  data <- (emit (HttpGet url) ;;; lift (axios_get ctx url)) ;;
  if (String.eqb (status data) "0" && Nat.ltb 0 (payload_length (payload data)))%bool then
    throw ("Received error " ++ payload_text (payload data) ++ " from Etherscan API")%string
  else
    lift (accountTxListResultSchema_parse (payload data)).

(** [ethers.BigNumber.from(tx.value).gt(0)] *)
Definition hasValue (tx : EtherscanTransaction) : result bool :=
  match Ethers.BigNumber_from (value tx) with
  | Ok v => Ok (0 <? v)
  | Err e => Err e
  end.

(** [Array.prototype.filter] with a predicate that may throw: the first
    throw ends the loop. *)
Fixpoint filterM {A} (p : A -> result bool) (l : list A) : result (list A) :=
  match l with
  | [] => Ok []
  | x :: rest =>
      match p x with
      | Err e => Err e
      | Ok b =>
          match filterM p rest with
          | Err e => Err e
          | Ok kept => Ok (if b then x :: kept else kept)
          end
      end
  end.

(** The first rejection among the mapper promises, if any. *)
Fixpoint firstRejection (rs : list (result unit)) : result unit :=
  match rs with
  | [] => Ok tt
  | Ok _ :: rest => firstRejection rest
  | Err e :: _ => Err e
  end.

(** A request over the network: the caller waits for the answer. *)
Definition isRequest (ev : Event) : bool :=
  match ev with
  | HttpGet _ | CreateDeposit _ => true
  | Log _ _ _ => false
  end.

(** What a call does in one go when it starts: its events up to its first
    request, the request included. *)
Fixpoint beforeReply (evs : list Event) : list Event :=
  match evs with
  | [] => []
  | ev :: rest => if isRequest ev then [ev] else ev :: beforeReply rest
  end.

(** What the call does once the answer has come. *)
Fixpoint afterReply (evs : list Event) : list Event :=
  match evs with
  | [] => []
  | ev :: rest => if isRequest ev then rest else afterReply rest
  end.

(** A call that fails before it has asked anything over the network. *)
Definition failsEarly (m : M unit) : bool :=
  match outcome m with
  | Err _ => negb (existsb isRequest (events m))
  | Ok _ => false
  end.

(** The rejection that comes first in time: that of a mapper that failed
    on the spot, if there is one; else that of a mapper that failed on an
    answer. *)
Definition earliestRejection (runs : list (M unit)) : result unit :=
  match find failsEarly runs with
  | Some m => outcome m
  | None => firstRejection (map outcome runs)
  end.

(** [pMap(input, mapper)] with the defaults of p-map, which the worker does
    not override: no bound on concurrency, and [stopOnError].  The file does
    not fix the version of the library; the model follows p-map 4, which
    starts every mapper, in input order, before any of them can be seen to
    fail.  Each mapper runs up to its first request; the continuations run
    when the answers come, taken here in the order of the requests.  So
    the events are those of all the starts, then those of all the
    continuations.  The promise of [pMap] rejects with the first rejection
    in time, and resolves when all mappers have resolved. *)
Definition pMap {A} (input : list A) (mapper : A -> M unit) : M unit :=
  let runs := map mapper input in
  (flat_map (fun m => beforeReply (events m)) runs
     ++ flat_map (fun m => afterReply (events m)) runs,
   earliestRejection runs).

(** [timestamp < order.createdAt.getTime()] with
    [timestamp = Number(etherscanTx.timeStamp) * 1000]. *)
Definition beforeOrder (order : Order) (etherscanTx : EtherscanTransaction) : bool :=
  let timestamp := Js.mul (Js.Number (timeStamp etherscanTx)) (Js.ofZ 1000) in
  Js.lt timestamp (Js.ofZ (createdAt order)).

(** The mapper given to [pMap]. *)
Definition scanCandidate (ctx : Context) (order : Order) (orderId : string)
    (etherscanTx : EtherscanTransaction) : M unit :=
  if beforeOrder order etherscanTx then
    logger Warn "Ignoring tx %s that happened before order %s was created"
      [hash etherscanTx; orderId]
  else
    logger Info "Scanning tx %s" [hash etherscanTx] ;;;
    _ <- scanTxId ctx etherscanTx orderId ;;
    ret tt.

(** The part of the task that follows a successful fetch. *)
Definition scanTransactions (ctx : Context) (order : Order) (orderId : string)
    (txs : list EtherscanTransaction) : M unit :=
  (* Only transactions with a value *)
  txs <- lift (filterM hasValue txs) ;;
  (* Only the first 10 transactions *)
  let txs := firstn 10 txs in
  logger Info "Found %s transactions for order %s"
    [Js.string_of_nat (List.length txs); orderId] ;;;
  pMap txs (scanCandidate ctx order orderId).

(** The handler given to [queue.run]: one task per delivered order id. *)
Definition orderTask (ctx : Context) (orderId : string) : M unit :=
  logger Info "Processing queued task to look at order %s for deposits" [orderId] ;;;
  match findOneBy ctx orderId with
  | None => logger Error "Order %s not found" [orderId]
  | Some order =>
      match depositAddress order with
      | None =>
          (* The deposit address may have been unassigned *)
          logger Error "Order %s has no deposit address" [orderId]
      | Some deposit =>
          fetched <- try_catch
            ((* In descending order *)
             txs <- getEtherScanTxListForAddress ctx (address deposit) ;;
             ret (Some txs))
            (fun message =>
               logger Error "Error fetching txs for order %s: %s" [orderId; message] ;;;
               ret None) ;;
          match fetched with
          | None => ret tt
          | Some txs => scanTransactions ctx order orderId txs
          end
      end
  end.

(** What the queue is told about a task. *)
Inductive Report : Type :=
| Acknowledged
| ReportedFailed (e : string).

(** Modelled from the spec: [RedisTaskQueue.run] of [@sideshift/shared-node],
    whose code is not in this file.  The queue hands each delivered order id
    to the handler; a handler that returns is acknowledged, a handler that
    fails is reported failed and left to the queue's redelivery. *)
Definition reportOf (r : result unit) : Report :=
  match r with
  | Ok _ => Acknowledged
  | Err e => ReportedFailed e
  end.

Definition queue_run (deliveries : list string) (handler : string -> M unit)
  : list Event * list Report :=
  let runs := map handler deliveries in
  (flat_map events runs, map (fun m => reportOf (outcome m)) runs).

(** [runScanByOrderId()], on the order ids the queue delivers. *)
Definition runScanByOrderId (ctx : Context) (deliveries : list string)
  : list Event * list Report :=
  if negb (Js.truthy (etherscanApiKey ctx)) then
    ([Log Error "Etherscan not configured" []], [])
  else
    queue_run deliveries (orderTask ctx).

(** ** Observations on a run *)

Definition creditCall (ev : Event) : list CreditRequest :=
  match ev with
  | CreateDeposit request => [request]
  | _ => []
  end.

(** The requests sent to the ledger, in the order they were sent. *)
Definition creditCalls (evs : list Event) : list CreditRequest :=
  flat_map creditCall evs.

Definition scanningHash (ev : Event) : list string :=
  match ev with
  | Log Info message [h] => if String.eqb message "Scanning tx %s" then [h] else []
  | _ => []
  end.

(** Hashes of the transactions handed to [scanTxId], read off the log. *)
Definition scannedHashes (evs : list Event) : list string :=
  flat_map scanningHash evs.

(** The request [scanTxId] builds once the total is formatted. *)
Definition requestFor (ctx : Context) (tx : EtherscanTransaction) (orderId totalAsEther : string)
  : CreditRequest :=
  {| orderId := orderId;
     txid := hash tx;
     amount := totalAsEther;
     uniqueId := getEthereumNativeDepositUniqueId ctx (nativeMethod ctx) (hash tx) |}.

(** The order and the transaction list a task works on, once the order is
    found, has a deposit address, and the fetch has succeeded. *)
Definition taskInput (ctx : Context) (orderId : string)
  : option (Order * list EtherscanTransaction) :=
  match findOneBy ctx orderId with
  | Some order =>
      match depositAddress order with
      | Some deposit =>
          match outcome (getEtherScanTxListForAddress ctx (address deposit)) with
          | Ok txs => Some (order, txs)
          | Err _ => None
          end
      | None => None
      end
  | None => None
  end.

(** ** The rules as the specification words them *)

(** [to] is present and is the account, letter case aside. *)
Definition sweepToAccount (ctx : Context) (tx : EtherscanTransaction) : bool :=
  Js.truthy (to tx) && String.eqb (Js.toLowerCase (to tx)) (Js.toLowerCase (account ctx)).

(** The parsed value is strictly positive. *)
Definition valuePositive (tx : EtherscanTransaction) : bool :=
  match Ethers.BigNumber_from (value tx) with
  | Ok v => 0 <? v
  | Err _ => false
  end.

(** The timestamp, in seconds, is at or after the creation of the order, in
    milliseconds. *)
Definition atOrAfterCreation (order : Order) (tx : EtherscanTransaction) : bool :=
  Js.le (Js.ofZ (createdAt order))
        (Js.mul (Js.Number (timeStamp tx)) (Js.ofZ 1000)).

Definition eligible (ctx : Context) (order : Order) (tx : EtherscanTransaction) : bool :=
  sweepToAccount ctx tx && valuePositive tx && atOrAfterCreation order tx.

(** [select] of the specification: the four drop rules, then the first ten
    survivors. *)
Definition select (ctx : Context) (order : Order) (txs : list EtherscanTransaction)
  : list EtherscanTransaction :=
  firstn 10 (filter (eligible ctx order) txs).

(** The candidates as the worker narrows them: the value rule, the first
    ten, and then, transaction by transaction, the time and address rules. *)
Definition survivors (ctx : Context) (order : Order) (txs : list EtherscanTransaction)
  : list EtherscanTransaction :=
  filter (fun tx => negb (beforeOrder order tx) && sweepToAccount ctx tx)
         (firstn 10 (filter valuePositive txs)).

(** ** Further observations *)

Definition httpRequest (ev : Event) : list string :=
  match ev with
  | HttpGet url => [url]
  | _ => []
  end.

(** The URLs requested, in the order they were requested. *)
Definition httpRequests (evs : list Event) : list string :=
  flat_map httpRequest evs.

Definition ignoringHash (ev : Event) : list string :=
  match ev with
  | Log Warn message [h; _] =>
      if String.eqb message "Ignoring tx %s that happened before order %s was created"
      then [h] else []
  | _ => []
  end.

(** Hashes of the candidates set aside as older than the order. *)
Definition ignoredHashes (evs : list Event) : list string :=
  flat_map ignoringHash evs.

Definition foundCount (ev : Event) : list string :=
  match ev with
  | Log Info message [n; _] =>
      if String.eqb message "Found %s transactions for order %s" then [n] else []
  | _ => []
  end.

(** The counts announced by the task. *)
Definition foundCounts (evs : list Event) : list string :=
  flat_map foundCount evs.

(** The same context with another ledger behind the client. *)
Definition withLedger (ctx : Context) (ledger : CreditRequest -> result bool) : Context :=
  {| etherscanApiKey := etherscanApiKey ctx;
     account := account ctx;
     network := network ctx;
     nativeMethod := nativeMethod ctx;
     findOneBy := findOneBy ctx;
     axios_get := axios_get ctx;
     maybeInternalCreateDeposit := ledger;
     getEthereumNativeDepositUniqueId := getEthereumNativeDepositUniqueId ctx |}.

(** The same transaction with another spelling of its recipient. *)
Definition withTo (tx : EtherscanTransaction) (recipient : string) : EtherscanTransaction :=
  {| hash := hash tx; from := from tx; to := recipient; value := value tx;
     timeStamp := timeStamp tx; gasPrice := gasPrice tx; gas := gas tx;
     gasUsed := gasUsed tx |}.

(** [runConfirmedNativeTokenExtraWorker()]: the context is read, the
    clients are made, and [runScanByOrderId] runs. *)
Definition runConfirmedNativeTokenExtraWorker (ctx : Context) (deliveries : list string)
  : list Event * list Report :=
  runScanByOrderId ctx deliveries.

(** ** A scenario to run the worker on *)

Module Scenario.

Definition theAccount : string := "0xAbCd00000000000000000000000000000000Ef01".
Definition theDeposit : string := "0x1111111111111111111111111111111111111111".
Definition eth : NativeMethod := {| methodId := "ethereum-native"; asset := "ETH" |}.

(** Order created at second 1000. *)
Definition theOrder : Order :=
  {| id := "order-1"; createdAt := 1000000;
     depositAddress := Some {| address := theDeposit |} |}.

Definition mkTx (h t v ts gp g : string) : EtherscanTransaction :=
  {| hash := h; from := theDeposit; to := t; value := v; timeStamp := ts;
     gasPrice := gp; gas := g; gasUsed := g |}.

Definition rawOf (tx : EtherscanTransaction) : RawTransaction :=
  {| raw_hash := Some (hash tx); raw_from := Some (from tx); raw_to := Some (to tx);
     raw_value := Some (value tx); raw_timeStamp := Some (timeStamp tx);
     raw_gasPrice := Some (gasPrice tx); raw_gas := Some (gas tx);
     raw_gasUsed := Some (gasUsed tx) |}.

(** A context whose feed answers every request with [answer] and whose
    ledger answers every request with [ledger]. *)
Definition contextWith (answer : result EtherscanData) (ledger : result bool) : Context :=
  {| etherscanApiKey := "KEY";
     account := "0xabcd00000000000000000000000000000000ef01";
     network := "mainnet";
     nativeMethod := eth;
     findOneBy := fun i => if String.eqb i "order-1" then Some theOrder else None;
     axios_get := fun _ => answer;
     maybeInternalCreateDeposit := fun _ => ledger;
     getEthereumNativeDepositUniqueId := fun m h => (methodId m ++ "/" ++ h)%string |}.

Definition feedOf (txs : list EtherscanTransaction) : result EtherscanData :=
  Ok {| status := "1"; payload := PArray (map rawOf txs) |}.

(** A sweep of 1000 base units, gas 21000 at price 10, at second 1300. *)
Definition sweep : EtherscanTransaction :=
  mkTx "0xaaa1" theAccount "1000" "1300" "10" "21000".

(** The same sweep without a gas price. *)
Definition sweepNoGasPrice : EtherscanTransaction :=
  mkTx "0xaaa2" theAccount "1000" "1300" "" "21000".

(** A transfer with a value to another address. *)
Definition elsewhere : EtherscanTransaction :=
  mkTx "0xbbb1" "0x2222222222222222222222222222222222222222" "7" "1300" "10" "21000".

(** A sweep that carries no value. *)
Definition sweepZero : EtherscanTransaction :=
  mkTx "0xccc1" theAccount "0" "1300" "10" "21000".

(** The end-to-end scenario of the specification: a transfer before the
    order was created, a sweep without value, a transfer elsewhere, and a
    sweep of 500 base units with gas 21000 at price 2. *)
Definition endToEnd : list EtherscanTransaction :=
  [ mkTx "0xe900" theAccount "5" "900" "2" "21000";
    mkTx "0xe1100" theAccount "0" "1100" "2" "21000";
    mkTx "0xe1200" "0x2222222222222222222222222222222222222222" "5" "1200" "2" "21000";
    mkTx "0xe1300" theAccount "500" "1300" "2" "21000" ].

(** Ten transfers elsewhere, then one sweep. *)
Definition crowdedFeed : list EtherscanTransaction :=
  repeat elsewhere 10 ++ [sweep].

(** Eleven sweeps, told apart by their hashes. *)
Definition elevenSweeps : list EtherscanTransaction :=
  map (fun h => mkTx h theAccount "1000" "1300" "10" "21000")
      ["0x01"; "0x02"; "0x03"; "0x04"; "0x05"; "0x06"; "0x07"; "0x08"; "0x09";
       "0x0a"; "0x0b"].

End Scenario.

(** * Properties *)

(** ** The effect monad *)

Lemma events_bind {A B} (m : M A) (f : A -> M B) :
  events (bind m f) =
  events m ++ match outcome m with Ok a => events (f a) | Err _ => [] end.
Proof.
  destruct m as [t [a | e]]; unfold bind, events, outcome; simpl.
  - destruct (f a); reflexivity.
  - now rewrite app_nil_r.
Qed.

Lemma outcome_bind {A B} (m : M A) (f : A -> M B) :
  outcome (bind m f) =
  match outcome m with Ok a => outcome (f a) | Err e => Err e end.
Proof.
  destruct m as [t [a | e]]; unfold bind, outcome; simpl.
  - destruct (f a); reflexivity.
  - reflexivity.
Qed.

Lemma creditCalls_app (xs ys : list Event) :
  creditCalls (xs ++ ys) = creditCalls xs ++ creditCalls ys.
Proof. apply flat_map_app. Qed.

Lemma scannedHashes_app (xs ys : list Event) :
  scannedHashes (xs ++ ys) = scannedHashes xs ++ scannedHashes ys.
Proof. apply flat_map_app. Qed.

(** ** [scanTxId] *)

(** The three answers of the ledger: stored, already there, failure. *)
Ltac ledger_cases ctx :=
  destruct (maybeInternalCreateDeposit ctx _) as [[ | ] | ?].

(** Transactions that are not a sweep to the account leave [scanTxId]
    at once, with nothing done. *)
Lemma scanTxId_not_sweep ctx tx orderId :
  sweepToAccount ctx tx = false ->
  scanTxId ctx tx orderId = ret false.
Proof.
  unfold sweepToAccount, scanTxId. intros H.
  destruct (Js.truthy (to tx)); simpl in *; [ | reflexivity].
  now rewrite H.
Qed.

(** A sweep without gas price throws before anything is sent. *)
Lemma scanTxId_no_gasPrice ctx tx orderId :
  sweepToAccount ctx tx = true ->
  Js.truthy (gasPrice tx) = false ->
  scanTxId ctx tx orderId = throw "Unsupported EIP-1559 sweep transaction".
Proof.
  unfold sweepToAccount, scanTxId. intros H G.
  apply andb_prop in H as [-> ->]. simpl. now rewrite G.
Qed.

(** The requests of one call of [scanTxId]: at most one, and then for the
    formatted total. *)
Lemma scanTxId_creditCalls ctx tx orderId :
  creditCalls (events (scanTxId ctx tx orderId)) =
  if (sweepToAccount ctx tx && Js.truthy (gasPrice tx))%bool then
    match Ethers.formatEther (value tx), Ethers.formatEther (settlementTotal tx) with
    | Ok _, Ok totalAsEther => [requestFor ctx tx orderId totalAsEther]
    | _, _ => []
    end
  else [].
Proof.
  destruct (sweepToAccount ctx tx) eqn:S.
  - destruct (Js.truthy (gasPrice tx)) eqn:G; simpl.
    + unfold scanTxId, sweepToAccount in *.
      apply andb_prop in S as [-> ->]. rewrite G. simpl.
      destruct (Ethers.formatEther (value tx)) as [ve | e]; [ | reflexivity].
      destruct (Ethers.formatEther (settlementTotal tx)) as [te | e]; [ | reflexivity].
      unfold createDeposit, requestFor. simpl.
      ledger_cases ctx; reflexivity.
    + now rewrite scanTxId_no_gasPrice.
  - now rewrite scanTxId_not_sweep.
Qed.

Lemma scanTxId_scannedHashes ctx tx orderId :
  scannedHashes (events (scanTxId ctx tx orderId)) = [].
Proof.
  unfold scanTxId.
  destruct (Js.truthy (to tx)); [ | reflexivity]. simpl.
  destruct (String.eqb _ _); [ | reflexivity]. simpl.
  destruct (Js.truthy (gasPrice tx)); [ | reflexivity]. simpl.
  destruct (Ethers.formatEther (value tx)) as [ve | e]; [ | reflexivity].
  destruct (Ethers.formatEther (settlementTotal tx)) as [te | e]; [ | reflexivity].
  unfold createDeposit. simpl.
  ledger_cases ctx; reflexivity.
Qed.

(** ** The mapper and [pMap] *)

Section Mapper.

Variables (ctx : Context) (order : Order) (orderId : string).

Lemma scanCandidate_events tx :
  events (scanCandidate ctx order orderId tx) =
  if beforeOrder order tx then
    [Log Warn "Ignoring tx %s that happened before order %s was created" [hash tx; orderId]]
  else
    Log Info "Scanning tx %s" [hash tx] :: events (scanTxId ctx tx orderId).
Proof.
  unfold scanCandidate. destruct (beforeOrder order tx); [reflexivity | ].
  destruct (scanTxId ctx tx orderId) as [t [b | e]]; unfold events; simpl.
  - now rewrite app_nil_r.
  - reflexivity.
Qed.

Lemma scanCandidate_outcome tx :
  outcome (scanCandidate ctx order orderId tx) =
  if beforeOrder order tx then Ok tt
  else match outcome (scanTxId ctx tx orderId) with
       | Ok _ => Ok tt
       | Err e => Err e
       end.
Proof.
  unfold scanCandidate. destruct (beforeOrder order tx); [reflexivity | ].
  destruct (scanTxId ctx tx orderId) as [t [b | e]]; reflexivity.
Qed.

Lemma scanCandidate_creditCalls tx :
  creditCalls (events (scanCandidate ctx order orderId tx)) =
  if beforeOrder order tx then [] else creditCalls (events (scanTxId ctx tx orderId)).
Proof.
  rewrite scanCandidate_events. now destruct (beforeOrder order tx).
Qed.

Lemma scanCandidate_scannedHashes tx :
  scannedHashes (events (scanCandidate ctx order orderId tx)) =
  if beforeOrder order tx then [] else [hash tx].
Proof.
  rewrite scanCandidate_events. destruct (beforeOrder order tx); [reflexivity | ].
  change (scannedHashes (?e :: ?l)) with (scanningHash e ++ scannedHashes l).
  now rewrite scanTxId_scannedHashes.
Qed.

End Mapper.

Lemma flat_map_flat_map {A B C} (g : B -> list C) (f : A -> list B) (l : list A) :
  flat_map g (flat_map f l) = flat_map (fun x => flat_map g (f x)) l.
Proof.
  induction l as [ | x l IH]; simpl; [reflexivity | ].
  now rewrite flat_map_app, IH.
Qed.

Lemma flat_map_map {A B C} (f : B -> list C) (h : A -> B) (l : list A) :
  flat_map f (map h l) = flat_map (fun x => f (h x)) l.
Proof. induction l as [ | x l IH]; simpl; [reflexivity | now rewrite IH]. Qed.

Lemma beforeReply_afterReply (evs : list Event) :
  beforeReply evs ++ afterReply evs = evs.
Proof.
  induction evs as [ | ev evs IH]; simpl; [reflexivity | ].
  destruct (isRequest ev); simpl; [reflexivity | now rewrite IH].
Qed.

(** [scanTxId] waits once, for the ledger; all that follows the answer is
    the line that tells of a stored deposit.  An observation that does not
    look at that line sees the whole call in its start. *)
Lemma scanTxId_start {B} (g : Event -> list B) ctx tx orderId :
  (forall message, g (Log Info message []) = []) ->
  flat_map g (beforeReply (events (scanTxId ctx tx orderId))) =
    flat_map g (events (scanTxId ctx tx orderId))
  /\ flat_map g (afterReply (events (scanTxId ctx tx orderId))) = [].
Proof.
  intros L. unfold scanTxId.
  destruct (Js.truthy (to tx)); [ | now split]. simpl.
  destruct (String.eqb _ _); [ | now split]. simpl.
  destruct (Js.truthy (gasPrice tx)); [ | now split]. simpl.
  destruct (Ethers.formatEther (value tx)) as [ve | e]; [ | now split].
  destruct (Ethers.formatEther (settlementTotal tx)) as [te | e]; [ | now split].
  unfold createDeposit. simpl.
  ledger_cases ctx; simpl; rewrite ?L; now split.
Qed.

Lemma scanCandidate_start {B} (g : Event -> list B) ctx order orderId tx :
  (forall message, g (Log Info message []) = []) ->
  flat_map g (beforeReply (events (scanCandidate ctx order orderId tx))) =
    flat_map g (events (scanCandidate ctx order orderId tx))
  /\ flat_map g (afterReply (events (scanCandidate ctx order orderId tx))) = [].
Proof.
  intros L. rewrite scanCandidate_events.
  destruct (beforeOrder order tx); [now split | ].
  destruct (scanTxId_start g ctx tx orderId L) as [S A].
  cbn [beforeReply afterReply isRequest flat_map]. now rewrite S, A.
Qed.

Lemma pMap_events {A} (input : list A) (mapper : A -> M unit) :
  events (pMap input mapper) =
  flat_map (fun x => beforeReply (events (mapper x))) input
  ++ flat_map (fun x => afterReply (events (mapper x))) input.
Proof. unfold pMap, events at 1. cbn [fst]. now rewrite !flat_map_map. Qed.

Lemma pMap_outcome {A} (input : list A) (mapper : A -> M unit) :
  outcome (pMap input mapper) = earliestRejection (map mapper input).
Proof. reflexivity. Qed.

(** An observation of the candidates run by [pMap], when it does not look
    at the lines that tell of stored deposits: what it sees of each
    candidate, in the order of the candidates. *)
Lemma pMap_scanCandidate_observed {B} (g : Event -> list B) ctx order orderId candidates :
  (forall message, g (Log Info message []) = []) ->
  flat_map g (events (pMap candidates (scanCandidate ctx order orderId))) =
  flat_map (fun tx => flat_map g (events (scanCandidate ctx order orderId tx))) candidates.
Proof.
  intros L. rewrite pMap_events, flat_map_app, !flat_map_flat_map.
  assert (flat_map (fun tx => flat_map g
            (afterReply (events (scanCandidate ctx order orderId tx)))) candidates = [])
    as ->.
  { induction candidates as [ | tx l IH]; simpl; [reflexivity | ].
    rewrite IH, app_nil_r. now apply scanCandidate_start. }
  rewrite app_nil_r.
  induction candidates as [ | tx l IH]; simpl; [reflexivity | ].
  rewrite IH. f_equal. now apply scanCandidate_start.
Qed.

Lemma creditCalls_flat_map {A} (f : A -> list Event) (l : list A) :
  creditCalls (flat_map f l) = flat_map (fun x => creditCalls (f x)) l.
Proof.
  induction l as [ | x l IH]; simpl; [reflexivity | ].
  now rewrite creditCalls_app, IH.
Qed.

Lemma scannedHashes_flat_map {A} (f : A -> list Event) (l : list A) :
  scannedHashes (flat_map f l) = flat_map (fun x => scannedHashes (f x)) l.
Proof.
  induction l as [ | x l IH]; simpl; [reflexivity | ].
  now rewrite scannedHashes_app, IH.
Qed.

Lemma firstRejection_ok (rs : list (result unit)) :
  firstRejection rs = Ok tt <-> Forall (fun r => r = Ok tt) rs.
Proof.
  induction rs as [ | [[] | e] rs IH]; simpl.
  - split; auto.
  - rewrite IH. split; [now constructor | now inversion 1].
  - split; [discriminate | inversion 1; discriminate].
Qed.


Lemma earliestRejection_ok (runs : list (M unit)) :
  earliestRejection runs = Ok tt <-> Forall (fun m => outcome m = Ok tt) runs.
Proof.
  unfold earliestRejection. destruct (find failsEarly runs) as [m | ] eqn:F.
  - apply find_some in F as [I E]. unfold failsEarly in E.
    destruct (outcome m) as [u | e] eqn:O; [discriminate | ].
    split; [discriminate | ]. intros H. rewrite Forall_forall in H.
    specialize (H m I). congruence.
  - rewrite firstRejection_ok, Forall_map. reflexivity.
Qed.


(** ** The value filter *)

Lemma filterM_hasValue_ok txs kept :
  filterM hasValue txs = Ok kept -> kept = filter valuePositive txs.
Proof.
  revert kept. induction txs as [ | tx txs IH]; simpl; intros kept H.
  - now injection H as <-.
  - unfold hasValue at 1 in H. unfold valuePositive at 1.
    destruct (Ethers.BigNumber_from (value tx)) as [v | e]; [ | discriminate].
    destruct (filterM hasValue txs) as [kept' | e]; [ | discriminate].
    injection H as <-. rewrite (IH kept' eq_refl). reflexivity.
Qed.

Lemma filterM_hasValue_total txs :
  Forall (fun tx => is_ok (hasValue tx) = true) txs ->
  filterM hasValue txs = Ok (filter valuePositive txs).
Proof.
  induction 1 as [ | tx txs Htx _ IH]; simpl; [reflexivity | ].
  rewrite IH. assert (hasValue tx = Ok (valuePositive tx)) as ->.
  { unfold hasValue, valuePositive in *.
    destruct (Ethers.BigNumber_from (value tx)); [reflexivity | discriminate]. }
  reflexivity.
Qed.

(** ** The task *)

Lemma fetch_events ctx address :
  events (getEtherScanTxListForAddress ctx address) =
  [HttpGet (txlistUrl address (etherscanApiKey ctx))].
Proof.
  unfold getEtherScanTxListForAddress.
  destruct (axios_get ctx _) as [data | e]; simpl; [ | reflexivity].
  destruct (_ && _)%bool; simpl; reflexivity.
Qed.

Lemma scanTransactions_events ctx order orderId txs :
  events (scanTransactions ctx order orderId txs) =
  match filterM hasValue txs with
  | Ok kept =>
      Log Info "Found %s transactions for order %s"
        [Js.string_of_nat (List.length (firstn 10 kept)); orderId]
      :: events (pMap (firstn 10 kept) (scanCandidate ctx order orderId))
  | Err _ => []
  end.
Proof.
  unfold scanTransactions.
  destruct (filterM hasValue txs) as [kept | e]; [ | reflexivity].
  unfold lift. cbn [bind app]. unfold logger, emit. cbn [bind].
  destruct (pMap _ _). reflexivity.
Qed.

Lemma scanTransactions_outcome ctx order orderId txs :
  outcome (scanTransactions ctx order orderId txs) =
  match filterM hasValue txs with
  | Ok kept =>
      earliestRejection (map (scanCandidate ctx order orderId) (firstn 10 kept))
  | Err e => Err e
  end.
Proof.
  unfold scanTransactions.
  destruct (filterM hasValue txs) as [kept | e]; [ | reflexivity].
  unfold lift. cbn [bind app]. unfold logger, emit. cbn [bind].
  rewrite <- pMap_outcome.
  destruct (pMap _ _). reflexivity.
Qed.

(** A task with an input is the fetch followed by the scan. *)
Lemma orderTask_with_input ctx orderId order txs :
  taskInput ctx orderId = Some (order, txs) ->
  exists deposit,
    depositAddress order = Some deposit /\
    orderTask ctx orderId =
    (Log Info "Processing queued task to look at order %s for deposits" [orderId]
       :: HttpGet (txlistUrl (address deposit) (etherscanApiKey ctx))
       :: events (scanTransactions ctx order orderId txs),
     outcome (scanTransactions ctx order orderId txs)).
Proof.
  unfold taskInput, orderTask. intros H.
  destruct (findOneBy ctx orderId) as [o | ]; [ | discriminate].
  destruct (depositAddress o) as [d | ] eqn:D; [ | discriminate].
  pose proof (fetch_events ctx (address d)) as F.
  destruct (getEtherScanTxListForAddress ctx (address d)) as [fetched [l | e]];
    unfold events, outcome in *; simpl in *; [ | discriminate].
  injection H as -> ->. exists d. split; [exact D | ].
  subst fetched. unfold logger, emit, try_catch, ret. cbn [bind app].
  destruct (scanTransactions ctx order orderId txs). reflexivity.
Qed.

(** A task without input sends nothing to the ledger and returns. *)
Lemma orderTask_without_input ctx orderId :
  taskInput ctx orderId = None ->
  creditCalls (events (orderTask ctx orderId)) = [] /\
  scannedHashes (events (orderTask ctx orderId)) = [] /\
  outcome (orderTask ctx orderId) = Ok tt.
Proof.
  unfold taskInput, orderTask. intros H.
  destruct (findOneBy ctx orderId) as [o | ]; [ | repeat split].
  destruct (depositAddress o) as [d | ]; [ | repeat split].
  pose proof (fetch_events ctx (address d)) as F.
  destruct (getEtherScanTxListForAddress ctx (address d)) as [fetched [l | e]];
    unfold events, outcome in *; simpl in *; [discriminate | ].
  subst fetched. repeat split.
Qed.

Lemma orderTask_creditCalls ctx orderId :
  creditCalls (events (orderTask ctx orderId)) =
  match taskInput ctx orderId with
  | Some (order, txs) => creditCalls (events (scanTransactions ctx order orderId txs))
  | None => []
  end.
Proof.
  destruct (taskInput ctx orderId) as [[order txs] | ] eqn:H.
  - destruct (orderTask_with_input _ _ _ _ H) as (d & _ & ->). reflexivity.
  - now apply orderTask_without_input.
Qed.

Lemma orderTask_scannedHashes ctx orderId :
  scannedHashes (events (orderTask ctx orderId)) =
  match taskInput ctx orderId with
  | Some (order, txs) => scannedHashes (events (scanTransactions ctx order orderId txs))
  | None => []
  end.
Proof.
  destruct (taskInput ctx orderId) as [[order txs] | ] eqn:H.
  - destruct (orderTask_with_input _ _ _ _ H) as (d & _ & ->). reflexivity.
  - now apply orderTask_without_input.
Qed.

Lemma scanTransactions_creditCalls ctx order orderId txs :
  creditCalls (events (scanTransactions ctx order orderId txs)) =
  match filterM hasValue txs with
  | Ok kept =>
      flat_map (fun tx => creditCalls (events (scanCandidate ctx order orderId tx)))
               (firstn 10 kept)
  | Err _ => []
  end.
Proof.
  rewrite scanTransactions_events.
  destruct (filterM hasValue txs) as [kept | e]; [ | reflexivity].
  change (creditCalls (?e :: ?l)) with (creditCall e ++ creditCalls l).
  cbn [creditCall app]. now apply pMap_scanCandidate_observed.
Qed.

Lemma scanTransactions_scannedHashes ctx order orderId txs :
  scannedHashes (events (scanTransactions ctx order orderId txs)) =
  match filterM hasValue txs with
  | Ok kept =>
      flat_map (fun tx => scannedHashes (events (scanCandidate ctx order orderId tx)))
               (firstn 10 kept)
  | Err _ => []
  end.
Proof.
  rewrite scanTransactions_events.
  destruct (filterM hasValue txs) as [kept | e]; [ | reflexivity].
  change (scannedHashes (?e :: ?l)) with (scanningHash e ++ scannedHashes l).
  cbn [scanningHash app]. now apply pMap_scanCandidate_observed.
Qed.

(** A sweep with a gas price and well-formed amounts: one request, and a log
    line when the ledger stored a deposit. *)
Lemma scanTxId_sweep ctx tx orderId valueAsEther totalAsEther :
  sweepToAccount ctx tx = true ->
  Js.truthy (gasPrice tx) = true ->
  Ethers.formatEther (value tx) = Ok valueAsEther ->
  Ethers.formatEther (settlementTotal tx) = Ok totalAsEther ->
  let request := requestFor ctx tx orderId totalAsEther in
  scanTxId ctx tx orderId =
  match maybeInternalCreateDeposit ctx request with
  | Ok true =>
      ([CreateDeposit request;
        Log Info (storedDepositMessage tx valueAsEther (asset (nativeMethod ctx)) orderId) []],
       Ok true)
  | Ok false => ([CreateDeposit request], Ok false)
  | Err e => ([CreateDeposit request], Err e)
  end.
Proof.
  unfold sweepToAccount, scanTxId. intros S G V T.
  apply andb_prop in S as [-> ->]. rewrite G, V, T. simpl.
  unfold createDeposit, requestFor. simpl.
  ledger_cases ctx; reflexivity.
Qed.

Lemma scanTxId_credit_inv ctx tx orderId req :
  In req (creditCalls (events (scanTxId ctx tx orderId))) ->
  sweepToAccount ctx tx = true /\
  Js.truthy (gasPrice tx) = true /\
  exists valueAsEther totalAsEther,
    Ethers.formatEther (value tx) = Ok valueAsEther /\
    Ethers.formatEther (settlementTotal tx) = Ok totalAsEther /\
    req = requestFor ctx tx orderId totalAsEther.
Proof.
  rewrite scanTxId_creditCalls.
  destruct (sweepToAccount ctx tx); simpl; [ | contradiction].
  destruct (Js.truthy (gasPrice tx)); simpl; [ | contradiction].
  destruct (Ethers.formatEther (value tx)) as [ve | e]; [ | contradiction].
  destruct (Ethers.formatEther (settlementTotal tx)) as [te | e]; [ | contradiction].
  intros [<- | []]. repeat split. now exists ve, te.
Qed.

(** ** C1: the credited amount *)

(** Counterexample to C1 as stated.  For the sweep of 1000 base units with
    gas 21000 at price 10 the base-unit total is 211000, yet the amount
    sent to the ledger is the 18-decimal text 0.000000000000211. *)
Lemma credited_amount_is_not_base_units :
  exists req,
    creditCalls (events (scanTxId (Scenario.contextWith (Scenario.feedOf []) (Ok true))
                                  Scenario.sweep "order-1")) = [req] /\
    settlementTotal Scenario.sweep = "211000" /\
    amount req = "0.000000000000211" /\
    amount req <> settlementTotal Scenario.sweep.
Proof.
  eexists. split; [vm_compute; reflexivity | ].
  split; [vm_compute; reflexivity | ].
  split; [reflexivity | ]. vm_compute. discriminate.
Qed.

(** C1, amended.  Every request [scanTxId] sends to the ledger carries as
    amount the ether-style rendering ([formatEther], 18 decimals) of the
    base-unit total [value + gas * gasPrice]; the request is for the given
    order and the transaction's hash.  The ether-style rendering of the bare
    value occurs in the log line only: every event of the call is either
    that request or that log line. *)
Theorem scanTxId_credits_formatted_total ctx tx oid req :
  In req (creditCalls (events (scanTxId ctx tx oid))) ->
  Ethers.formatEther (settlementTotal tx) = Ok (amount req) /\
  orderId req = oid /\
  txid req = hash tx /\
  uniqueId req = getEthereumNativeDepositUniqueId ctx (nativeMethod ctx) (hash tx) /\
  exists valueAsEther,
    Ethers.formatEther (value tx) = Ok valueAsEther /\
    forall ev, In ev (events (scanTxId ctx tx oid)) ->
      ev = CreateDeposit req \/
      ev = Log Info (storedDepositMessage tx valueAsEther (asset (nativeMethod ctx)) oid) [].
Proof.
  intros H. apply scanTxId_credit_inv in H as (S & G & ve & te & V & T & ->).
  repeat split; try assumption.
  exists ve. split; [assumption | ]. intros ev.
  rewrite (scanTxId_sweep ctx tx oid ve te S G V T). cbv zeta.
  ledger_cases ctx; simpl; intuition.
Qed.

Lemma scanTxId_credits_formatted_total_witness :
  Ethers.formatEther (settlementTotal Scenario.sweep) = Ok "0.000000000000211".
Proof.
  exact (proj1 (scanTxId_credits_formatted_total
                  (Scenario.contextWith (Scenario.feedOf []) (Ok true))
                  Scenario.sweep "order-1"
                  (requestFor (Scenario.contextWith (Scenario.feedOf []) (Ok true))
                              Scenario.sweep "order-1" "0.000000000000211")
                  (or_introl eq_refl))).
Defined.

(** ** C2: where the ten are cut *)

Lemma flat_map_filter {A B} (p : A -> bool) (f g : A -> list B) (l : list A) :
  (forall x, f x = if p x then g x else []) ->
  flat_map f l = flat_map g (filter p l).
Proof.
  intros H. induction l as [ | x l IH]; simpl; [reflexivity | ].
  rewrite H, IH. now destruct (p x).
Qed.

(** What a candidate sends to the ledger: what [scanTxId] sends for it when
    it passes the time and address rules, nothing otherwise. *)
Lemma scanCandidate_creditCalls_rules ctx order orderId tx :
  creditCalls (events (scanCandidate ctx order orderId tx)) =
  if (negb (beforeOrder order tx) && sweepToAccount ctx tx)%bool
  then creditCalls (events (scanTxId ctx tx orderId))
  else [].
Proof.
  rewrite scanCandidate_creditCalls.
  destruct (beforeOrder order tx); simpl; [reflexivity | ].
  destruct (sweepToAccount ctx tx) eqn:S; [reflexivity | ].
  now rewrite scanTxId_not_sweep.
Qed.

(** Counterexample to C2 as stated.  The feed holds ten transfers with a
    value to another address and then one sweep.  The sweep is the only
    survivor of the four rules, and [scanTxId] would credit it; the task
    cuts the list to its first ten entries before it looks at addresses, so
    the sweep is never reached and nothing is credited. *)
Lemma truncation_precedes_address_rule :
  taskInput (Scenario.contextWith (Scenario.feedOf Scenario.crowdedFeed) (Ok true)) "order-1"
    = Some (Scenario.theOrder, Scenario.crowdedFeed) /\
  select (Scenario.contextWith (Scenario.feedOf Scenario.crowdedFeed) (Ok true))
         Scenario.theOrder Scenario.crowdedFeed = [Scenario.sweep] /\
  List.length (creditCalls (events
    (scanTxId (Scenario.contextWith (Scenario.feedOf Scenario.crowdedFeed) (Ok true))
              Scenario.sweep "order-1"))) = 1%nat /\
  creditCalls (events
    (orderTask (Scenario.contextWith (Scenario.feedOf Scenario.crowdedFeed) (Ok true))
               "order-1")) = [].
Proof. repeat split; vm_compute; reflexivity. Qed.

(** C2, amended.  Only the value rule is applied before the cut: the task
    keeps the transactions with a strictly positive value, cuts that list to
    its first ten entries, and applies the time rule and the two address
    rules to each of those ten.  The requests sent to the ledger are those
    of [scanTxId] on the entries of the cut list that pass these rules, in
    feed order. *)
Theorem credit_calls_of_task ctx orderId order txs :
  taskInput ctx orderId = Some (order, txs) ->
  Forall (fun tx => is_ok (hasValue tx) = true) txs ->
  creditCalls (events (orderTask ctx orderId)) =
  flat_map (fun tx => creditCalls (events (scanTxId ctx tx orderId)))
           (survivors ctx order txs).
Proof.
  intros I V. rewrite orderTask_creditCalls, I, scanTransactions_creditCalls.
  rewrite (filterM_hasValue_total _ V). unfold survivors.
  apply flat_map_filter. intros tx. apply scanCandidate_creditCalls_rules.
Qed.

Lemma credit_calls_of_task_witness :
  creditCalls (events
    (orderTask (Scenario.contextWith (Scenario.feedOf Scenario.endToEnd) (Ok true))
               "order-1")) =
  flat_map (fun tx => creditCalls (events
              (scanTxId (Scenario.contextWith (Scenario.feedOf Scenario.endToEnd) (Ok true))
                        tx "order-1")))
           (survivors (Scenario.contextWith (Scenario.feedOf Scenario.endToEnd) (Ok true))
                      Scenario.theOrder Scenario.endToEnd).
Proof.
  apply (credit_calls_of_task
           (Scenario.contextWith (Scenario.feedOf Scenario.endToEnd) (Ok true))
           "order-1" Scenario.theOrder Scenario.endToEnd).
  - vm_compute. reflexivity.
  - unfold Scenario.endToEnd.
    repeat (apply Forall_cons; [vm_compute; reflexivity | ]). apply Forall_nil.
Defined.

(** ** C3: candidates and the fate of the task *)


(** The fate of a task with an input, read off its candidates. *)
Lemma orderTask_outcome ctx oid order txs kept :
  taskInput ctx oid = Some (order, txs) ->
  filterM hasValue txs = Ok kept ->
  outcome (orderTask ctx oid) =
  earliestRejection (map (scanCandidate ctx order oid) (firstn 10 kept)).
Proof.
  intros I K. destruct (orderTask_with_input _ _ _ _ I) as (deposit & _ & E).
  rewrite E. unfold outcome at 1. cbn [snd].
  now rewrite scanTransactions_outcome, K.
Qed.



(** ** C4: a failed fetch *)

Lemma fetch_outcome ctx address :
  outcome (getEtherScanTxListForAddress ctx address) =
  match axios_get ctx (txlistUrl address (etherscanApiKey ctx)) with
  | Err e => Err e
  | Ok data =>
      if (String.eqb (status data) "0" && Nat.ltb 0 (payload_length (payload data)))%bool
      then Err ("Received error " ++ payload_text (payload data) ++ " from Etherscan API")%string
      else accountTxListResultSchema_parse (payload data)
  end.
Proof.
  unfold getEtherScanTxListForAddress.
  destruct (axios_get ctx _) as [data | e]; simpl; [ | reflexivity].
  destruct (_ && _)%bool; reflexivity.
Qed.

(** The three ways the fetch fails: the transport, the provider, the shape
    of the answer. *)
Lemma fetch_fails ctx address :
  is_ok (outcome (getEtherScanTxListForAddress ctx address)) = false <->
  (exists e, axios_get ctx (txlistUrl address (etherscanApiKey ctx)) = Err e) \/
  (exists data, axios_get ctx (txlistUrl address (etherscanApiKey ctx)) = Ok data /\
     ((status data = "0" /\ (0 < payload_length (payload data))%nat) \/
      is_ok (accountTxListResultSchema_parse (payload data)) = false)).
Proof.
  rewrite fetch_outcome.
  destruct (axios_get ctx _) as [data | e].
  - destruct (String.eqb_spec (status data) "0") as [S | S]; simpl.
    + destruct (Nat.ltb_spec 0 (payload_length (payload data))) as [L | L]; simpl.
      * split; [ | reflexivity]. intros _. right. exists data. now intuition.
      * split.
        -- intros H. right. exists data. now intuition.
        -- intros [[e [=]] | (d & [= <-] & [[_ L'] | H])]; [lia | exact H].
    + split.
      * intros H. right. exists data. now intuition.
      * intros [[e [=]] | (d & [= <-] & [[S' _] | H])]; [contradiction | exact H].
  - simpl. split; [ | reflexivity]. intros _. left. now exists e.
Qed.

(** An element without [gasPrice] does not pass the schema: the whole list
    is refused, whatever else it holds. *)
Lemma absent_gasPrice_fails_validation items r :
  In r items -> raw_gasPrice r = None ->
  accountTxListResultSchema_parse (PArray items) = Err "ZodError".
Proof.
  intros I G. unfold accountTxListResultSchema_parse.
  assert (parseTransactions items = None) as ->; [ | reflexivity].
  induction items as [ | x items IH]; [contradiction | ].
  simpl. destruct I as [-> | I].
  - unfold parseTransaction. rewrite G.
    now destruct (raw_hash r), (raw_from r), (raw_to r), (raw_value r), (raw_timeStamp r).
  - rewrite (IH I). now destruct (parseTransaction x).
Qed.

(** Counterexample to C4 as stated.  Whether the transport fails, the
    provider reports an error, or the answer has the wrong shape, the task
    logs the error and returns; the queue sees a handler that returned. *)
Lemma failed_fetch_is_acknowledged :
  runScanByOrderId (Scenario.contextWith (Err "timeout of 1000ms exceeded") (Ok true))
                   ["order-1"]
    = ([Log Info "Processing queued task to look at order %s for deposits" ["order-1"];
        HttpGet (txlistUrl Scenario.theDeposit "KEY");
        Log Error "Error fetching txs for order %s: %s"
            ["order-1"; "timeout of 1000ms exceeded"]],
       [Acknowledged]) /\
  snd (runScanByOrderId
         (Scenario.contextWith
            (Ok {| status := "0"; payload := PString "Max rate limit reached" |}) (Ok true))
         ["order-1"]) = [Acknowledged] /\
  snd (runScanByOrderId
         (Scenario.contextWith
            (Ok {| status := "1"; payload := PString "unexpected" |}) (Ok true))
         ["order-1"]) = [Acknowledged].
Proof. repeat split; vm_compute; reflexivity. Qed.

(** C4, amended.  Whenever the fetch of the transaction list fails, for
    whatever reason, the task logs the error and returns normally: no
    transaction is scanned, nothing is sent to the ledger, and the queue is
    given a handler that returned, not a failure. *)
Theorem failed_fetch_ends_task_quietly ctx orderId order deposit message :
  findOneBy ctx orderId = Some order ->
  depositAddress order = Some deposit ->
  outcome (getEtherScanTxListForAddress ctx (address deposit)) = Err message ->
  orderTask ctx orderId =
    ([Log Info "Processing queued task to look at order %s for deposits" [orderId];
      HttpGet (txlistUrl (address deposit) (etherscanApiKey ctx));
      Log Error "Error fetching txs for order %s: %s" [orderId; message]],
     Ok tt)
  /\ creditCalls (events (orderTask ctx orderId)) = []
  /\ scannedHashes (events (orderTask ctx orderId)) = []
  /\ reportOf (outcome (orderTask ctx orderId)) = Acknowledged.
Proof.
  intros O D F. unfold orderTask. rewrite O, D.
  pose proof (fetch_events ctx (address deposit)) as E.
  destruct (getEtherScanTxListForAddress ctx (address deposit)) as [fetched [txs | e]];
    unfold events, outcome in *; simpl in *; [discriminate | ].
  injection F as ->. subst fetched. repeat split.
Qed.

Lemma failed_fetch_ends_task_quietly_witness :
  reportOf (outcome (orderTask
    (Scenario.contextWith
       (Ok {| status := "0"; payload := PString "Max rate limit reached" |}) (Ok true))
    "order-1")) = Acknowledged.
Proof.
  refine (proj2 (proj2 (proj2 (failed_fetch_ends_task_quietly
            (Scenario.contextWith
               (Ok {| status := "0"; payload := PString "Max rate limit reached" |}) (Ok true))
            "order-1" Scenario.theOrder {| address := Scenario.theDeposit |}
            "Received error Max rate limit reached from Etherscan API" _ _ _)))).
  - reflexivity.
  - reflexivity.
  - vm_compute. reflexivity.
Defined.

(** ** C5: what is credited is eligible *)

Lemma In_firstn {A} (n : nat) (l : list A) (x : A) :
  In x (firstn n l) -> In x l.
Proof.
  revert l. induction n as [ | n IH]; intros [ | y l]; simpl; try contradiction.
  intros [-> | H]; [now left | right; now apply IH].
Qed.





Lemma atOrAfterCreation_not_before order tx :
  atOrAfterCreation order tx = true -> beforeOrder order tx = false.
Proof.
  unfold atOrAfterCreation, beforeOrder. cbv zeta.
  destruct (Js.mul (Js.Number (timeStamp tx)) (Js.ofZ 1000)) as [ | negative | q];
    unfold Js.le, Js.ofZ; [discriminate | | ]; intros H; now apply negb_true_iff in H.
Qed.

(** A time stamp that is no number passes the test of the task, since a
    comparison with NaN is false. *)
Lemma beforeOrder_NaN order tx :
  Js.Number (timeStamp tx) = Js.NaN -> beforeOrder order tx = false.
Proof. unfold beforeOrder. intros H. now rewrite H. Qed.





(** ** C6: the settlement total *)

(** Printing an integer and reading it back gives the integer. *)
Lemma decimal_of_string_of_Z (z : Z) :
  Ethers.decimal_of_string (Ethers.string_of_Z z) = Some z.
Proof.
  unfold Ethers.decimal_of_string, Ethers.string_of_Z.
  rewrite DecimalString.NilZero.isi.
  - simpl. now rewrite DecimalZ.of_to.
  - destruct z; simpl; try discriminate.
    intros [= H]. now apply DecimalPos.Unsigned.to_uint_nonnil in H.
  - destruct z; simpl; try discriminate.
    intros [= H]. now apply DecimalPos.Unsigned.to_uint_nonnil in H.
Qed.

Lemma ns_times_exact a b x y :
  Ethers.decimal_of_string a = Some x ->
  Ethers.decimal_of_string b = Some y ->
  ns.times a b = Ethers.string_of_Z (x * y).
Proof. unfold ns.times, ns.lift2. now intros -> ->. Qed.

Lemma ns_sum_exact a b x y :
  Ethers.decimal_of_string a = Some x ->
  Ethers.decimal_of_string b = Some y ->
  ns.sum a b = Ethers.string_of_Z (x + y).
Proof. unfold ns.sum, ns.lift2. now intros -> ->. Qed.

(** C6.  For a transaction whose value, gas and gas price are decimal
    numerals, the settlement total is the numeral of
    [value + gas * gasPrice], computed on integers without rounding; the
    quantity is the [gas] field, and [gasUsed] plays no part.  For value
    1000, gas 21000 and gas price 10 the total is 211000. *)
Theorem settlementTotal_exact tx v g p :
  Ethers.decimal_of_string (value tx) = Some v ->
  Ethers.decimal_of_string (gas tx) = Some g ->
  Ethers.decimal_of_string (gasPrice tx) = Some p ->
  settlementTotal tx = Ethers.string_of_Z (v + g * p)
  /\ Ethers.decimal_of_string (settlementTotal tx) = Some (v + g * p)
  /\ (forall used,
        settlementTotal {| hash := hash tx; from := from tx; to := to tx; value := value tx;
                           timeStamp := timeStamp tx; gasPrice := gasPrice tx;
                           gas := gas tx; gasUsed := used |}
        = settlementTotal tx)
  /\ settlementTotal {| hash := "0xaaa1"; from := "0x1111"; to := "0xabcd"; value := "1000";
                        timeStamp := "1300"; gasPrice := "10"; gas := "21000";
                        gasUsed := "20000" |} = "211000".
Proof.
  intros V G P.
  assert (settlementTotal tx = Ethers.string_of_Z (v + g * p)) as E.
  { unfold settlementTotal.
    apply ns_sum_exact; [exact V | ].
    rewrite (ns_times_exact _ _ g p G P). apply decimal_of_string_of_Z. }
  split; [exact E | ]. split; [rewrite E; apply decimal_of_string_of_Z | ].
  split; [reflexivity | vm_compute; reflexivity].
Qed.

Lemma settlementTotal_exact_witness :
  settlementTotal Scenario.sweep = Ethers.string_of_Z (1000 + 21000 * 10).
Proof.
  refine (proj1 (settlementTotal_exact Scenario.sweep 1000 21000 10 _ _ _));
    vm_compute; reflexivity.
Defined.

(** ** C7: a sweep without gas price *)

Lemma truthy_empty s : s = "" -> Js.truthy s = false.
Proof. now intros ->. Qed.

Lemma eligible_true ctx order tx :
  eligible ctx order tx = true ->
  sweepToAccount ctx tx = true /\ valuePositive tx = true /\
  atOrAfterCreation order tx = true.
Proof.
  unfold eligible. intros H.
  apply andb_prop in H as [H T]. apply andb_prop in H as [S V]. now repeat split.
Qed.

(** Counterexample to C7 as stated.  The only candidate of the task is a
    sweep without gas price.  The error is not kept to that transaction:
    nothing catches it, so it is the outcome of the whole order task, which
    the queue sees fail. *)
Lemma missing_gasPrice_fails_the_task :
  orderTask (Scenario.contextWith (Scenario.feedOf [Scenario.sweepNoGasPrice]) (Ok true))
            "order-1"
  = ([Log Info "Processing queued task to look at order %s for deposits" ["order-1"];
      HttpGet (txlistUrl Scenario.theDeposit "KEY");
      Log Info "Found %s transactions for order %s" ["1"; "order-1"];
      Log Info "Scanning tx %s" ["0xaaa2"]],
     Err "Unsupported EIP-1559 sweep transaction") /\
  snd (runScanByOrderId
         (Scenario.contextWith (Scenario.feedOf [Scenario.sweepNoGasPrice]) (Ok true))
         ["order-1"])
  = [ReportedFailed "Unsupported EIP-1559 sweep transaction"].
Proof. split; vm_compute; reflexivity. Qed.

(** C7, amended.  For an otherwise eligible transaction whose gas price is
    missing (the empty text, the only absence the validated record admits),
    [scanTxId] throws before the total is computed and sends nothing to the
    ledger for it.  The error is not scoped to that transaction: no handler
    catches it, and an order task that has the transaction among its
    candidates fails. *)
Theorem missing_gasPrice_throws_without_credit ctx order oid tx :
  eligible ctx order tx = true ->
  gasPrice tx = "" ->
  scanTxId ctx tx oid = ([], Err "Unsupported EIP-1559 sweep transaction")
  /\ scanCandidate ctx order oid tx =
       ([Log Info "Scanning tx %s" [hash tx]], Err "Unsupported EIP-1559 sweep transaction")
  /\ creditCalls (events (scanCandidate ctx order oid tx)) = []
  /\ forall txs kept,
       taskInput ctx oid = Some (order, txs) ->
       filterM hasValue txs = Ok kept ->
       In tx (firstn 10 kept) ->
       exists e, outcome (orderTask ctx oid) = Err e.
Proof.
  intros E G. apply eligible_true in E as (S & _ & T).
  apply atOrAfterCreation_not_before in T. apply truthy_empty in G.
  pose proof (scanTxId_no_gasPrice ctx tx oid S G) as X.
  assert (scanCandidate ctx order oid tx =
          ([Log Info "Scanning tx %s" [hash tx]],
           Err "Unsupported EIP-1559 sweep transaction")) as C.
  { unfold scanCandidate. rewrite T, X. reflexivity. }
  split; [exact X | ]. split; [exact C | ].
  split; [now rewrite C | ].
  intros txs kept I K M. rewrite (orderTask_outcome _ _ _ _ _ I K).
  destruct (earliestRejection _) as [[] | e] eqn:R; [ | now exists e].
  apply earliestRejection_ok in R. rewrite Forall_map, Forall_forall in R.
  specialize (R tx M). rewrite C in R. discriminate.
Qed.

Lemma missing_gasPrice_throws_without_credit_witness :
  scanTxId (Scenario.contextWith (Scenario.feedOf []) (Ok true))
           Scenario.sweepNoGasPrice "order-1"
  = ([], Err "Unsupported EIP-1559 sweep transaction").
Proof.
  refine (proj1 (missing_gasPrice_throws_without_credit
            (Scenario.contextWith (Scenario.feedOf []) (Ok true))
            Scenario.theOrder "order-1" Scenario.sweepNoGasPrice _ _)).
  - vm_compute. reflexivity.
  - reflexivity.
Defined.

(** ** C8: ten at most, the first ten *)

Lemma flat_map_length_le {A B} (f : A -> list B) (l : list A) :
  (forall x, List.length (f x) <= 1)%nat ->
  (List.length (flat_map f l) <= List.length l)%nat.
Proof.
  intros H. induction l as [ | x l IH]; simpl; [lia | ].
  rewrite length_app. specialize (H x). lia.
Qed.

Lemma scanCandidate_creditCalls_le ctx order orderId tx :
  (List.length (creditCalls (events (scanCandidate ctx order orderId tx))) <= 1)%nat.
Proof.
  rewrite scanCandidate_creditCalls, scanTxId_creditCalls.
  destruct (beforeOrder order tx); simpl; [lia | ].
  destruct (_ && _)%bool; simpl; [ | lia].
  destruct (Ethers.formatEther (value tx)); simpl; [ | lia].
  destruct (Ethers.formatEther (settlementTotal tx)); simpl; lia.
Qed.

Lemma scanCandidate_scannedHashes_le ctx order orderId tx :
  (List.length (scannedHashes (events (scanCandidate ctx order orderId tx))) <= 1)%nat.
Proof.
  rewrite scanCandidate_scannedHashes. destruct (beforeOrder order tx); simpl; lia.
Qed.

Lemma filter_all {A} (p : A -> bool) (l : list A) :
  Forall (fun x => p x = true) l -> filter p l = l.
Proof.
  induction 1 as [ | x l H _ IH]; simpl; [reflexivity | ]. now rewrite H, IH.
Qed.

Lemma valuePositive_hasValue tx :
  valuePositive tx = true -> is_ok (hasValue tx) = true.
Proof.
  unfold valuePositive, hasValue.
  now destruct (Ethers.BigNumber_from (value tx)).
Qed.

Lemma flat_map_agree {A B} (f g : A -> list B) (l : list A) :
  (forall x, In x l -> f x = g x) -> flat_map f l = flat_map g l.
Proof.
  induction l as [ | x l IH]; simpl; intros H; [reflexivity | ].
  rewrite (H x (or_introl eq_refl)), IH; [reflexivity | ].
  intros y I. apply H. now right.
Qed.

Lemma flat_map_singleton {A B} (f : A -> B) (l : list A) :
  flat_map (fun x => [f x]) l = map f l.
Proof. induction l as [ | x l IH]; simpl; [reflexivity | now rewrite IH]. Qed.

(** C8.  A scan hands at most ten transactions to [scanTxId] and sends at
    most ten requests to the ledger.  When the fetched list holds ten or
    more transactions, all of them eligible, the transactions scanned are
    exactly its first ten, in the order of the list. *)
Theorem at_most_ten_and_the_first_ten ctx oid :
  (List.length (scannedHashes (events (orderTask ctx oid))) <= 10)%nat
  /\ (List.length (creditCalls (events (orderTask ctx oid))) <= 10)%nat
  /\ forall order txs,
       taskInput ctx oid = Some (order, txs) ->
       Forall (fun tx => eligible ctx order tx = true) txs ->
       (10 <= List.length txs)%nat ->
       scannedHashes (events (orderTask ctx oid)) = map hash (firstn 10 txs).
Proof.
  split; [ | split].
  - rewrite orderTask_scannedHashes.
    destruct (taskInput ctx oid) as [[order txs] | ]; [ | simpl; lia].
    rewrite scanTransactions_scannedHashes.
    destruct (filterM hasValue txs) as [kept | e]; [ | simpl; lia].
    etransitivity; [apply flat_map_length_le, scanCandidate_scannedHashes_le | ].
    apply firstn_le_length.
  - rewrite orderTask_creditCalls.
    destruct (taskInput ctx oid) as [[order txs] | ]; [ | simpl; lia].
    rewrite scanTransactions_creditCalls.
    destruct (filterM hasValue txs) as [kept | e]; [ | simpl; lia].
    etransitivity; [apply flat_map_length_le, scanCandidate_creditCalls_le | ].
    apply firstn_le_length.
  - intros order txs I E L.
    assert (filterM hasValue txs = Ok txs) as K.
    { rewrite filterM_hasValue_total.
      - f_equal. apply filter_all. revert E. apply Forall_impl.
        intros tx H. now apply eligible_true in H.
      - revert E. apply Forall_impl. intros tx H.
        apply valuePositive_hasValue. now apply eligible_true in H. }
    assert (forall tx, In tx (firstn 10 txs) -> beforeOrder order tx = false) as B.
    { intros tx H. apply In_firstn in H. rewrite Forall_forall in E.
      apply atOrAfterCreation_not_before. now apply (eligible_true ctx), E. }
    rewrite orderTask_scannedHashes, I, scanTransactions_scannedHashes, K.
    rewrite <- flat_map_singleton. apply flat_map_agree. intros tx H.
    rewrite scanCandidate_scannedHashes. now rewrite (B tx H).
Qed.

Lemma at_most_ten_and_the_first_ten_witness :
  scannedHashes (events
    (orderTask (Scenario.contextWith (Scenario.feedOf Scenario.elevenSweeps) (Ok true))
               "order-1"))
  = ["0x01"; "0x02"; "0x03"; "0x04"; "0x05"; "0x06"; "0x07"; "0x08"; "0x09"; "0x0a"].
Proof.
  refine (proj2 (proj2 (at_most_ten_and_the_first_ten
            (Scenario.contextWith (Scenario.feedOf Scenario.elevenSweeps) (Ok true))
            "order-1")) Scenario.theOrder Scenario.elevenSweeps _ _ _).
  - vm_compute. reflexivity.
  - unfold Scenario.elevenSweeps. cbn [map].
    repeat (apply Forall_cons; [vm_compute; reflexivity | ]). apply Forall_nil.
  - simpl. lia.
Defined.

(** ** C9: an error reported by the provider *)

(** C9.  When the answer has status 0 and a payload that is not empty, the
    fetch fails, after its one request, with the error
    [Received error <payload> from Etherscan API]; no transaction list is
    returned.  A payload that is a message appears in the error as it is. *)
Theorem provider_error_fails_fetch ctx addr data :
  axios_get ctx (txlistUrl addr (etherscanApiKey ctx)) = Ok data ->
  status data = "0" ->
  (0 < payload_length (payload data))%nat ->
  getEtherScanTxListForAddress ctx addr =
    ([HttpGet (txlistUrl addr (etherscanApiKey ctx))],
     Err ("Received error " ++ payload_text (payload data) ++ " from Etherscan API")%string)
  /\ (forall message, payload data = PString message ->
        outcome (getEtherScanTxListForAddress ctx addr) =
        Err ("Received error " ++ message ++ " from Etherscan API")%string).
Proof.
  intros A S L.
  assert (getEtherScanTxListForAddress ctx addr =
          ([HttpGet (txlistUrl addr (etherscanApiKey ctx))],
           Err ("Received error " ++ payload_text (payload data)
                  ++ " from Etherscan API")%string)) as E.
  { unfold getEtherScanTxListForAddress. rewrite A. cbn [emit lift bind app].
    rewrite S. apply Nat.ltb_lt in L. rewrite L. reflexivity. }
  split; [exact E | ]. intros message P. rewrite E, P. reflexivity.
Qed.

Lemma provider_error_fails_fetch_witness :
  outcome (getEtherScanTxListForAddress
             (Scenario.contextWith
                (Ok {| status := "0"; payload := PString "Max rate limit reached" |})
                (Ok true))
             Scenario.theDeposit)
  = Err "Received error Max rate limit reached from Etherscan API".
Proof.
  refine (proj2 (provider_error_fails_fetch
            (Scenario.contextWith
               (Ok {| status := "0"; payload := PString "Max rate limit reached" |})
               (Ok true))
            Scenario.theDeposit
            {| status := "0"; payload := PString "Max rate limit reached" |} _ _ _)
          "Max rate limit reached" _).
  - reflexivity.
  - reflexivity.
  - simpl. lia.
  - reflexivity.
Defined.

(** ** C10: [scanTxId] does not test the value *)

(** C10.  There is a transaction to the account, with a gas price and the
    value 0, for which [scanTxId], called on it directly, sends a request to
    the ledger; its amount renders [gas * gasPrice].  The same transaction,
    arriving through the feed, is dropped by the value filter of the task
    and nothing is sent. *)
Theorem scanTxId_credits_zero_value :
  exists ctx tx oid req,
    Js.truthy (to tx) = true /\
    Js.toLowerCase (to tx) = Js.toLowerCase (account ctx) /\
    Js.truthy (gasPrice tx) = true /\
    value tx = "0" /\
    creditCalls (events (scanTxId ctx tx oid)) = [req] /\
    txid req = hash tx /\
    Ethers.formatEther (ns.times (gas tx) (gasPrice tx)) = Ok (amount req) /\
    (exists order, taskInput ctx oid = Some (order, [tx])) /\
    creditCalls (events (orderTask ctx oid)) = [].
Proof.
  exists (Scenario.contextWith (Scenario.feedOf [Scenario.sweepZero]) (Ok true)).
  exists Scenario.sweepZero, "order-1".
  exists {| orderId := "order-1"; txid := "0xccc1"; amount := "0.00000000000021";
            uniqueId := "ethereum-native/0xccc1" |}.
  repeat split; try (vm_compute; reflexivity).
  exists Scenario.theOrder. vm_compute. reflexivity.
Qed.

(** * Further properties of the worker *)

(** ** Reading a run *)

(** [scanTxId] in one piece: the two address tests, the gas price test, the
    two renderings, the ledger. *)
Lemma scanTxId_cases ctx tx orderId :
  scanTxId ctx tx orderId =
  if negb (sweepToAccount ctx tx) then ret false
  else if negb (Js.truthy (gasPrice tx)) then throw "Unsupported EIP-1559 sweep transaction"
  else
    match Ethers.formatEther (value tx), Ethers.formatEther (settlementTotal tx) with
    | Err e, _ => throw e
    | Ok _, Err e => throw e
    | Ok valueAsEther, Ok totalAsEther =>
        let request := requestFor ctx tx orderId totalAsEther in
        match maybeInternalCreateDeposit ctx request with
        | Ok true =>
            ([CreateDeposit request;
              Log Info (storedDepositMessage tx valueAsEther (asset (nativeMethod ctx)) orderId)
                  []],
             Ok true)
        | Ok false => ([CreateDeposit request], Ok false)
        | Err e => ([CreateDeposit request], Err e)
        end
    end.
Proof.
  destruct (sweepToAccount ctx tx) eqn:S; simpl.
  - destruct (Js.truthy (gasPrice tx)) eqn:G; simpl.
    + destruct (Ethers.formatEther (value tx)) as [ve | e] eqn:V.
      * destruct (Ethers.formatEther (settlementTotal tx)) as [te | e] eqn:T.
        -- now apply scanTxId_sweep.
        -- unfold scanTxId, sweepToAccount in *. apply andb_prop in S as [-> ->].
           now rewrite G, V, T.
      * unfold scanTxId, sweepToAccount in *. apply andb_prop in S as [-> ->].
        now rewrite G, V.
    + now apply scanTxId_no_gasPrice.
  - now apply scanTxId_not_sweep.
Qed.

(** What an observation sees of [scanTxId]: nothing, unless it looks at
    requests to the ledger or at the line that tells of a stored deposit. *)
Lemma scanTxId_unobserved {B} (g : Event -> list B) ctx tx orderId :
  (forall request, g (CreateDeposit request) = []) ->
  (forall message, g (Log Info message []) = []) ->
  flat_map g (events (scanTxId ctx tx orderId)) = [].
Proof.
  intros C L. rewrite scanTxId_cases.
  destruct (sweepToAccount ctx tx); [ | reflexivity]. simpl.
  destruct (Js.truthy (gasPrice tx)); [ | reflexivity]. simpl.
  destruct (Ethers.formatEther (value tx)); [ | reflexivity].
  destruct (Ethers.formatEther (settlementTotal tx)); [ | reflexivity].
  cbv zeta. ledger_cases ctx; simpl; now rewrite ?C, ?L.
Qed.

(** An observation of the scan that follows the fetch. *)
Lemma scanTransactions_observed {B} (g : Event -> list B) ctx order orderId txs :
  (forall message, g (Log Info message []) = []) ->
  flat_map g (events (scanTransactions ctx order orderId txs)) =
  match filterM hasValue txs with
  | Ok kept =>
      g (Log Info "Found %s transactions for order %s"
             [Js.string_of_nat (List.length (firstn 10 kept)); orderId])
      ++ flat_map (fun tx => flat_map g (events (scanCandidate ctx order orderId tx)))
                  (firstn 10 kept)
  | Err _ => []
  end.
Proof.
  intros L. rewrite scanTransactions_events.
  destruct (filterM hasValue txs) as [kept | e]; [ | reflexivity].
  cbn [flat_map]. now rewrite pMap_scanCandidate_observed.
Qed.

(** An observation of a whole task that has an input. *)
Lemma orderTask_observed {B} (g : Event -> list B) ctx orderId order txs :
  taskInput ctx orderId = Some (order, txs) ->
  exists deposit,
    depositAddress order = Some deposit /\
    flat_map g (events (orderTask ctx orderId)) =
    g (Log Info "Processing queued task to look at order %s for deposits" [orderId])
    ++ g (HttpGet (txlistUrl (address deposit) (etherscanApiKey ctx)))
    ++ flat_map g (events (scanTransactions ctx order orderId txs)).
Proof.
  intros I. destruct (orderTask_with_input _ _ _ _ I) as (deposit & D & ->).
  exists deposit. split; [exact D | reflexivity].
Qed.

(** ** The fetch and the schema *)

Lemma parseTransaction_fields r tx :
  parseTransaction r = Some tx <->
  raw_hash r = Some (hash tx) /\ raw_from r = Some (from tx) /\
  raw_to r = Some (to tx) /\ raw_value r = Some (value tx) /\
  raw_timeStamp r = Some (timeStamp tx) /\ raw_gasPrice r = Some (gasPrice tx) /\
  raw_gas r = Some (gas tx) /\ raw_gasUsed r = Some (gasUsed tx).
Proof.
  unfold parseTransaction. split.
  - destruct (raw_hash r), (raw_from r), (raw_to r), (raw_value r),
      (raw_timeStamp r), (raw_gasPrice r), (raw_gas r), (raw_gasUsed r);
      try discriminate.
    intros [= <-]. simpl. now repeat split.
  - intros (-> & -> & -> & -> & -> & -> & -> & ->). now destruct tx.
Qed.

Lemma parseTransactions_each items txs :
  parseTransactions items = Some txs <->
  Forall2 (fun r tx => parseTransaction r = Some tx) items txs.
Proof.
  revert txs. induction items as [ | r items IH]; intros txs; simpl.
  - split; [intros [= <-]; constructor | now inversion 1].
  - destruct (parseTransaction r) as [tx | ] eqn:P.
    + destruct (parseTransactions items) as [rest | ] eqn:R.
      * split.
        -- intros [= <-]. constructor; [exact P | now apply IH].
        -- inversion 1 as [ | r' tx' items' txs' Htx Hrest]; subst.
           apply IH in Hrest. congruence.
      * split; [discriminate | ].
        inversion 1 as [ | r' tx' items' txs' Htx Hrest]; subst.
        apply IH in Hrest. discriminate.
    + split; [discriminate | ].
      inversion 1 as [ | r' tx' items' txs' Htx Hrest]; subst. congruence.
Qed.

(** X1.  The fetch returns a transaction list exactly when the request
    succeeded, the result is an array, each of its elements carries the
    eight string fields, and the status is not 0 unless the array is empty.
    The list returned then holds the elements of the array, one for one and
    in their order, with the fields as they were sent. *)
Theorem fetch_returns_validated_list ctx addr txs :
  outcome (getEtherScanTxListForAddress ctx addr) = Ok txs <->
  exists data items,
    axios_get ctx (txlistUrl addr (etherscanApiKey ctx)) = Ok data /\
    payload data = PArray items /\
    (status data <> "0" \/ items = []) /\
    Forall2 (fun r tx =>
               raw_hash r = Some (hash tx) /\ raw_from r = Some (from tx) /\
               raw_to r = Some (to tx) /\ raw_value r = Some (value tx) /\
               raw_timeStamp r = Some (timeStamp tx) /\
               raw_gasPrice r = Some (gasPrice tx) /\
               raw_gas r = Some (gas tx) /\ raw_gasUsed r = Some (gasUsed tx))
            items txs.
Proof.
  rewrite fetch_outcome. split.
  - destruct (axios_get ctx _) as [data | e]; [ | discriminate].
    destruct (String.eqb_spec (status data) "0") as [S | S]; simpl.
    + destruct (payload data) as [message | items] eqn:P; simpl.
      * destruct (Nat.ltb 0 (String.length message)); discriminate.
      * destruct items as [ | r items]; simpl; [ | discriminate].
        intros [= <-]. exists data, []. repeat split; auto.
    + destruct (payload data) as [message | items] eqn:P; simpl; [discriminate | ].
      destruct (parseTransactions items) as [parsed | ] eqn:R; [ | discriminate].
      intros [= <-]. exists data, items. repeat split; auto.
      apply parseTransactions_each in R. revert R. apply Forall2_impl.
      intros r tx. apply parseTransaction_fields.
  - intros (data & items & -> & P & S & F). rewrite P. simpl.
    assert (parseTransactions items = Some txs) as R.
    { apply parseTransactions_each. revert F. apply Forall2_impl.
      intros r tx. apply parseTransaction_fields. }
    destruct S as [S | ->].
    + apply String.eqb_neq in S. rewrite S. simpl. now rewrite R.
    + inversion F. subst. now rewrite andb_false_r.
Qed.

(** X2.  Validation is all or nothing: when one element of the array lacks
    one of the eight fields, the fetch returns no list at all, and a task
    fed with that answer scans nothing and sends nothing to the ledger,
    whatever the other elements are. *)
Theorem one_invalid_element_refuses_the_list ctx oid order deposit data items r :
  findOneBy ctx oid = Some order ->
  depositAddress order = Some deposit ->
  axios_get ctx (txlistUrl (address deposit) (etherscanApiKey ctx)) = Ok data ->
  payload data = PArray items ->
  In r items ->
  parseTransaction r = None ->
  is_ok (outcome (getEtherScanTxListForAddress ctx (address deposit))) = false
  /\ creditCalls (events (orderTask ctx oid)) = []
  /\ scannedHashes (events (orderTask ctx oid)) = []
  /\ outcome (orderTask ctx oid) = Ok tt.
Proof.
  intros O D A P I N.
  assert (parseTransactions items = None) as R.
  { clear P. induction items as [ | x items IH]; [contradiction | ].
    simpl. destruct I as [-> | I]; [now rewrite N | ].
    rewrite (IH I). now destruct (parseTransaction x). }
  assert (is_ok (outcome (getEtherScanTxListForAddress ctx (address deposit))) = false) as F.
  { rewrite fetch_outcome, A, P. simpl. rewrite R. now destruct (_ && _)%bool. }
  split; [exact F | ].
  apply orderTask_without_input. unfold taskInput. rewrite O, D.
  now destruct (outcome (getEtherScanTxListForAddress ctx (address deposit))).
Qed.

Lemma one_invalid_element_refuses_the_list_witness :
  creditCalls (events (orderTask
    (Scenario.contextWith
       (Ok {| status := "1";
              payload := PArray [Scenario.rawOf Scenario.sweep;
                                 {| raw_hash := Some "0xdead"; raw_from := Some "0x1";
                                    raw_to := Some Scenario.theAccount;
                                    raw_value := Some "5"; raw_timeStamp := Some "1300";
                                    raw_gasPrice := None; raw_gas := Some "21000";
                                    raw_gasUsed := Some "21000" |}] |})
       (Ok true))
    "order-1")) = [].
Proof.
  refine (proj1 (proj2 (one_invalid_element_refuses_the_list
    (Scenario.contextWith
       (Ok {| status := "1";
              payload := PArray [Scenario.rawOf Scenario.sweep;
                                 {| raw_hash := Some "0xdead"; raw_from := Some "0x1";
                                    raw_to := Some Scenario.theAccount;
                                    raw_value := Some "5"; raw_timeStamp := Some "1300";
                                    raw_gasPrice := None; raw_gas := Some "21000";
                                    raw_gasUsed := Some "21000" |}] |})
       (Ok true))
    "order-1" Scenario.theOrder {| address := Scenario.theDeposit |}
    _ _ _ eq_refl eq_refl eq_refl eq_refl (or_intror (or_introl eq_refl)) eq_refl))).
Defined.

(** X3.  An answer whose result is the empty array, be its status 0 as
    when the provider finds no transaction, is no error: the task announces
    zero transactions, scans nothing, sends nothing and returns. *)
Theorem empty_feed_completes ctx oid order deposit data :
  findOneBy ctx oid = Some order ->
  depositAddress order = Some deposit ->
  axios_get ctx (txlistUrl (address deposit) (etherscanApiKey ctx)) = Ok data ->
  payload data = PArray [] ->
  orderTask ctx oid =
    ([Log Info "Processing queued task to look at order %s for deposits" [oid];
      HttpGet (txlistUrl (address deposit) (etherscanApiKey ctx));
      Log Info "Found %s transactions for order %s" ["0"; oid]],
     Ok tt).
Proof.
  intros O D A P.
  assert (taskInput ctx oid = Some (order, [])) as I.
  { unfold taskInput. rewrite O, D, fetch_outcome, A, P. simpl.
    now rewrite andb_false_r. }
  destruct (orderTask_with_input _ _ _ _ I) as (d & D' & ->).
  rewrite D in D'. injection D' as <-. reflexivity.
Qed.

Lemma empty_feed_completes_witness :
  outcome (orderTask
    (Scenario.contextWith (Ok {| status := "0"; payload := PArray [] |}) (Ok true))
    "order-1") = Ok tt.
Proof.
  exact (f_equal snd (empty_feed_completes
    (Scenario.contextWith (Ok {| status := "0"; payload := PArray [] |}) (Ok true))
    "order-1" Scenario.theOrder {| address := Scenario.theDeposit |}
    _ eq_refl eq_refl eq_refl eq_refl)).
Defined.

(** ** What a task asks of the outside *)

Lemma scanCandidate_unobserved {B} (g : Event -> list B) ctx order orderId tx :
  (forall request, g (CreateDeposit request) = []) ->
  (forall level message args, g (Log level message args) = []) ->
  flat_map g (events (scanCandidate ctx order orderId tx)) = [].
Proof.
  intros C L. rewrite scanCandidate_events.
  destruct (beforeOrder order tx); simpl; rewrite L; [reflexivity | ].
  apply scanTxId_unobserved; auto.
Qed.

(** X4.  A task for an order that is not found, or that has no deposit
    address, logs the reason and returns: it requests nothing from the
    provider and sends nothing to the ledger. *)
Theorem unknown_order_asks_nothing ctx oid :
  findOneBy ctx oid = None \/
  (exists order, findOneBy ctx oid = Some order /\ depositAddress order = None) ->
  httpRequests (events (orderTask ctx oid)) = []
  /\ creditCalls (events (orderTask ctx oid)) = []
  /\ outcome (orderTask ctx oid) = Ok tt
  /\ exists message,
       events (orderTask ctx oid) =
       [Log Info "Processing queued task to look at order %s for deposits" [oid];
        Log Error message [oid]].
Proof.
  unfold orderTask. intros [-> | (order & -> & ->)].
  - repeat split. now eexists.
  - repeat split. now eexists.
Qed.

Lemma unknown_order_asks_nothing_witness :
  httpRequests (events (orderTask
    (Scenario.contextWith (Scenario.feedOf [Scenario.sweep]) (Ok true)) "order-2")) = [].
Proof.
  exact (proj1 (unknown_order_asks_nothing
    (Scenario.contextWith (Scenario.feedOf [Scenario.sweep]) (Ok true)) "order-2"
    (or_introl eq_refl))).
Defined.

(** The requests of a task to the provider. *)
Lemma orderTask_httpRequests ctx oid :
  httpRequests (events (orderTask ctx oid)) =
  match findOneBy ctx oid with
  | Some order =>
      match depositAddress order with
      | Some deposit => [txlistUrl (address deposit) (etherscanApiKey ctx)]
      | None => []
      end
  | None => []
  end.
Proof.
  destruct (taskInput ctx oid) as [[order txs] | ] eqn:I.
  - destruct (orderTask_observed httpRequest _ _ _ _ I) as (deposit & D & E).
    unfold httpRequests. rewrite E.
    unfold taskInput in I. destruct (findOneBy ctx oid) as [o | ]; [ | discriminate].
    destruct (depositAddress o) as [d | ] eqn:Do; [ | discriminate].
    destruct (outcome (getEtherScanTxListForAddress ctx (address d))); [ | discriminate].
    injection I as -> ->. rewrite D in Do. injection Do as ->.
    rewrite scanTransactions_observed by reflexivity.
    destruct (filterM hasValue txs) as [kept | e]; [ | reflexivity].
    assert (forall l, flat_map (fun tx =>
              flat_map httpRequest (events (scanCandidate ctx order oid tx))) l = []) as N.
    { induction l as [ | tx l IH]; simpl; [reflexivity | ].
      rewrite IH, app_nil_r. apply scanCandidate_unobserved; reflexivity. }
    rewrite N. reflexivity.
  - unfold taskInput in I. unfold orderTask.
    destruct (findOneBy ctx oid) as [o | ]; [ | reflexivity].
    destruct (depositAddress o) as [d | ]; [ | reflexivity].
    pose proof (fetch_events ctx (address d)) as F.
    destruct (getEtherScanTxListForAddress ctx (address d)) as [fetched [l | e]];
      unfold events, outcome in *; simpl in *; [discriminate | ].
    subst fetched. reflexivity.
Qed.

(** X5.  A task makes one request to the provider when the order exists and
    has a deposit address, for the transaction list of that address in
    descending order with the configured key, and none otherwise; it never
    asks twice, whether the fetch fails or succeeds and however many
    transactions come back. *)
Theorem one_request_per_task ctx oid :
  httpRequests (events (orderTask ctx oid)) =
  match findOneBy ctx oid with
  | Some order =>
      match depositAddress order with
      | Some deposit =>
          [("https://api.etherscan.io/api?module=account&action=txlist&address="
              ++ address deposit ++ "&sort=desc&apikey=" ++ etherscanApiKey ctx)%string]
      | None => []
      end
  | None => []
  end.
Proof.
  rewrite orderTask_httpRequests.
  destruct (findOneBy ctx oid) as [order | ]; [ | reflexivity].
  destruct (depositAddress order); reflexivity.
Qed.

(** ** What [scanTxId] answers *)

(** X6.  [scanTxId] answers true exactly when it sent a request and the
    ledger stored a new deposit, and it is then, and only then, that the
    line telling of the stored deposit is logged.  When the ledger answers
    that the deposit was already there, the call returns false, without an
    error and without that line. *)
Theorem scanTxId_true_iff_stored ctx tx oid :
  (outcome (scanTxId ctx tx oid) = Ok true <->
   exists request,
     creditCalls (events (scanTxId ctx tx oid)) = [request] /\
     maybeInternalCreateDeposit ctx request = Ok true)
  /\ (outcome (scanTxId ctx tx oid) = Ok true <->
      exists message, In (Log Info message []) (events (scanTxId ctx tx oid)))
  /\ (forall request,
        creditCalls (events (scanTxId ctx tx oid)) = [request] ->
        maybeInternalCreateDeposit ctx request = Ok false ->
        scanTxId ctx tx oid = ([CreateDeposit request], Ok false)).
Proof.
  rewrite scanTxId_cases. unfold ret, throw, events, outcome.
  assert (forall r : result bool, r <> Ok true ->
    (snd (@nil Event, r) = Ok true <->
     exists request,
       creditCalls (fst (@nil Event, r)) = [request] /\
       maybeInternalCreateDeposit ctx request = Ok true)
    /\ (snd (@nil Event, r) = Ok true <->
        exists message, In (Log Info message []) (fst (@nil Event, r)))
    /\ (forall request,
          creditCalls (fst (@nil Event, r)) = [request] ->
          maybeInternalCreateDeposit ctx request = Ok false ->
          (@nil Event, r) = ([CreateDeposit request], Ok false))) as Quiet.
  { intros r R. simpl. repeat split; try contradiction.
    - intros (q & [=] & _).
    - intros (m & []).
    - intros q [=]. }
  destruct (sweepToAccount ctx tx); simpl; [ | now apply Quiet].
  destruct (Js.truthy (gasPrice tx)); simpl; [ | now apply Quiet].
  destruct (Ethers.formatEther (value tx)) as [ve | e]; [ | now apply Quiet].
  destruct (Ethers.formatEther (settlementTotal tx)) as [te | e];
    [ | now apply Quiet].
  cbv zeta.
  destruct (maybeInternalCreateDeposit ctx (requestFor ctx tx oid te)) as [[ | ] | e] eqn:L;
    simpl; (split; [ | split]).
  - split; [intros _; now eexists | reflexivity].
  - split; [intros _; eexists; right; left; reflexivity | reflexivity].
  - intros request [= <-] R. congruence.
  - split; [discriminate | intros (r & [= <-] & R); congruence].
  - split; [discriminate | intros (m & [[=] | []])].
  - intros request [= <-] _. reflexivity.
  - split; [discriminate | intros (r & [= <-] & R); congruence].
  - split; [discriminate | intros (m & [[=] | []])].
  - intros request [= <-] R. congruence.
Qed.

(** X7.  [scanTxId] fails only on a sweep to the account, and then for one
    of four reasons: the gas price is missing, the value does not render,
    the total does not render (in these three cases nothing was sent to the
    ledger), or the ledger call itself failed.  A transaction that is no
    sweep to the account never makes it fail, whatever its other fields. *)
Theorem scanTxId_failure_causes ctx tx oid e :
  outcome (scanTxId ctx tx oid) = Err e ->
  sweepToAccount ctx tx = true /\
  ((Js.truthy (gasPrice tx) = false /\ e = "Unsupported EIP-1559 sweep transaction" /\
    events (scanTxId ctx tx oid) = [])
   \/ (Ethers.formatEther (value tx) = Err e /\ events (scanTxId ctx tx oid) = [])
   \/ (Ethers.formatEther (settlementTotal tx) = Err e /\ events (scanTxId ctx tx oid) = [])
   \/ (exists request,
         events (scanTxId ctx tx oid) = [CreateDeposit request] /\
         maybeInternalCreateDeposit ctx request = Err e)).
Proof.
  rewrite scanTxId_cases.
  destruct (sweepToAccount ctx tx); simpl; [ | discriminate].
  intros H. split; [reflexivity | ].
  destruct (Js.truthy (gasPrice tx)); simpl in *.
  2: { injection H as <-. left. now repeat split. }
  destruct (Ethers.formatEther (value tx)) as [ve | e'].
  2: { injection H as <-. right. left. now split. }
  destruct (Ethers.formatEther (settlementTotal tx)) as [te | e'].
  2: { injection H as <-. right. right. left. now split. }
  cbv zeta in *.
  destruct (maybeInternalCreateDeposit ctx (requestFor ctx tx oid te)) as [[ | ] | e'] eqn:L;
    try discriminate.
  injection H as <-. right. right. right. eexists. split; [reflexivity | exact L].
Qed.

Lemma scanTxId_failure_causes_witness :
  sweepToAccount (Scenario.contextWith (Scenario.feedOf []) (Err "ledger is down"))
                 Scenario.sweep = true.
Proof.
  exact (proj1 (scanTxId_failure_causes
    (Scenario.contextWith (Scenario.feedOf []) (Err "ledger is down"))
    Scenario.sweep "order-1" "ledger is down" eq_refl)).
Defined.

Lemma toLowerCase_empty s t :
  Js.toLowerCase s = Js.toLowerCase t -> Js.truthy s = Js.truthy t.
Proof. destruct s, t; simpl; congruence. Qed.

(** X8.  The address test looks at letters without their case: two
    spellings of the recipient that agree once put in lower case make
    [scanTxId] do exactly the same, events and answer. *)
Theorem recipient_case_is_immaterial ctx tx oid recipient :
  Js.toLowerCase recipient = Js.toLowerCase (to tx) ->
  scanTxId ctx (withTo tx recipient) oid = scanTxId ctx tx oid.
Proof.
  intros H. rewrite !scanTxId_cases.
  assert (sweepToAccount ctx (withTo tx recipient) = sweepToAccount ctx tx) as ->.
  { unfold sweepToAccount. simpl. now rewrite H, (toLowerCase_empty _ _ H). }
  reflexivity.
Qed.

Lemma recipient_case_is_immaterial_witness :
  scanTxId (Scenario.contextWith (Scenario.feedOf []) (Ok true))
           (withTo Scenario.sweep "0XABCD00000000000000000000000000000000EF01") "order-1"
  = scanTxId (Scenario.contextWith (Scenario.feedOf []) (Ok true)) Scenario.sweep "order-1".
Proof.
  exact (recipient_case_is_immaterial
    (Scenario.contextWith (Scenario.feedOf []) (Ok true)) Scenario.sweep "order-1"
    "0XABCD00000000000000000000000000000000EF01" eq_refl).
Defined.

(** ** The value filter and the time rule *)

Lemma hasValue_error tx e :
  hasValue tx = Err e -> e = "invalid BigNumber string".
Proof.
  unfold hasValue, Ethers.BigNumber_from.
  destruct (Ethers.hex_of_string (value tx)); [discriminate | ].
  destruct (Ethers.decimal_of_string (value tx)); [discriminate | ].
  now intros [= <-].
Qed.

Lemma filterM_hasValue_error txs tx :
  In tx txs -> is_ok (hasValue tx) = false ->
  filterM hasValue txs = Err "invalid BigNumber string".
Proof.
  intros I B. induction txs as [ | x txs IH]; [contradiction | ].
  simpl. destruct (hasValue x) as [b | e] eqn:H.
  - destruct I as [-> | I]; [rewrite H in B; discriminate | ].
    now rewrite (IH I).
  - now rewrite (hasValue_error _ _ H).
Qed.

(** X9.  The value of every fetched transaction is read as a big number
    before anything else is done with the list.  One value that is no
    integer numeral, anywhere in the list, makes the task fail with the
    error of the conversion, outside the handler of fetch errors: no count
    is announced, no transaction is scanned, nothing is sent to the
    ledger. *)
Theorem malformed_value_fails_the_task ctx oid order txs tx :
  taskInput ctx oid = Some (order, txs) ->
  In tx txs ->
  is_ok (Ethers.BigNumber_from (value tx)) = false ->
  outcome (orderTask ctx oid) = Err "invalid BigNumber string"
  /\ foundCounts (events (orderTask ctx oid)) = []
  /\ scannedHashes (events (orderTask ctx oid)) = []
  /\ creditCalls (events (orderTask ctx oid)) = [].
Proof.
  intros I M B.
  assert (filterM hasValue txs = Err "invalid BigNumber string") as K.
  { apply (filterM_hasValue_error txs tx M). unfold hasValue.
    now destruct (Ethers.BigNumber_from (value tx)). }
  split; [ | split; [ | split]].
  - destruct (orderTask_with_input _ _ _ _ I) as (d & _ & ->).
    unfold outcome at 1. cbn [snd]. now rewrite scanTransactions_outcome, K.
  - destruct (orderTask_observed foundCount _ _ _ _ I) as (d & _ & E).
    unfold foundCounts. rewrite E, scanTransactions_observed, K by reflexivity. reflexivity.
  - now rewrite orderTask_scannedHashes, I, scanTransactions_scannedHashes, K.
  - now rewrite orderTask_creditCalls, I, scanTransactions_creditCalls, K.
Qed.

Lemma malformed_value_fails_the_task_witness :
  outcome (orderTask
    (Scenario.contextWith
       (Scenario.feedOf [Scenario.sweep;
                         Scenario.mkTx "0xbad" Scenario.theAccount "1.5" "1300" "10" "21000"])
       (Ok true))
    "order-1") = Err "invalid BigNumber string".
Proof.
  refine (proj1 (malformed_value_fails_the_task
    (Scenario.contextWith
       (Scenario.feedOf [Scenario.sweep;
                         Scenario.mkTx "0xbad" Scenario.theAccount "1.5" "1300" "10" "21000"])
       (Ok true))
    "order-1" Scenario.theOrder
    [Scenario.sweep; Scenario.mkTx "0xbad" Scenario.theAccount "1.5" "1300" "10" "21000"]
    (Scenario.mkTx "0xbad" Scenario.theAccount "1.5" "1300" "10" "21000") _ _ _)).
  - vm_compute. reflexivity.
  - right. left. reflexivity.
  - vm_compute. reflexivity.
Defined.

Lemma scanCandidate_ignoredHashes ctx order orderId tx :
  ignoredHashes (events (scanCandidate ctx order orderId tx)) =
  if beforeOrder order tx then [hash tx] else [].
Proof.
  unfold ignoredHashes. rewrite scanCandidate_events.
  destruct (beforeOrder order tx); [reflexivity | ].
  cbn [flat_map ignoringHash app]. now apply scanTxId_unobserved.
Qed.

Lemma scanCandidate_foundCounts ctx order orderId tx :
  foundCounts (events (scanCandidate ctx order orderId tx)) = [].
Proof.
  unfold foundCounts. rewrite scanCandidate_events.
  destruct (beforeOrder order tx); [reflexivity | ].
  cbn [flat_map foundCount app]. now apply scanTxId_unobserved.
Qed.

Lemma flat_map_conditional {A B} (p : A -> bool) (f : A -> B) (l : list A) :
  flat_map (fun x => if p x then [f x] else []) l = map f (filter p l).
Proof.
  induction l as [ | x l IH]; simpl; [reflexivity | ].
  rewrite IH. now destruct (p x).
Qed.

Lemma filter_partition_length {A} (p : A -> bool) (l : list A) :
  (List.length (filter (fun x => negb (p x)) l) + List.length (filter p l)
   = List.length l)%nat.
Proof.
  induction l as [ | x l IH]; simpl; [reflexivity | ].
  destruct (p x); simpl; lia.
Qed.

(** X10.  The candidates of a task are the first ten fetched transactions
    with a strictly positive value.  Each candidate is either set aside
    with a warning, when it is older than the order, or handed to
    [scanTxId], never both and never neither, in the order of the feed; the
    count the task announces is the number of candidates, ignored ones
    included. *)
Theorem candidates_are_scanned_or_ignored ctx oid order txs kept :
  taskInput ctx oid = Some (order, txs) ->
  filterM hasValue txs = Ok kept ->
  kept = filter valuePositive txs
  /\ scannedHashes (events (orderTask ctx oid)) =
       map hash (filter (fun tx => negb (beforeOrder order tx)) (firstn 10 kept))
  /\ ignoredHashes (events (orderTask ctx oid)) =
       map hash (filter (beforeOrder order) (firstn 10 kept))
  /\ foundCounts (events (orderTask ctx oid)) =
       [Js.string_of_nat
          (List.length (scannedHashes (events (orderTask ctx oid))) +
           List.length (ignoredHashes (events (orderTask ctx oid))))].
Proof.
  intros I K.
  assert (scannedHashes (events (orderTask ctx oid)) =
          map hash (filter (fun tx => negb (beforeOrder order tx)) (firstn 10 kept))) as S.
  { rewrite orderTask_scannedHashes, I, scanTransactions_scannedHashes, K.
    rewrite <- flat_map_conditional. apply flat_map_agree. intros tx _.
    rewrite scanCandidate_scannedHashes. now destruct (beforeOrder order tx). }
  assert (ignoredHashes (events (orderTask ctx oid)) =
          map hash (filter (beforeOrder order) (firstn 10 kept))) as G.
  { destruct (orderTask_observed ignoringHash _ _ _ _ I) as (d & _ & E).
    unfold ignoredHashes. rewrite E, scanTransactions_observed, K by reflexivity.
    cbn [ignoringHash app]. rewrite <- flat_map_conditional.
    apply flat_map_agree. intros tx _. apply scanCandidate_ignoredHashes. }
  split; [now apply filterM_hasValue_ok | ]. split; [exact S | ]. split; [exact G | ].
  rewrite S, G, !length_map, filter_partition_length.
  destruct (orderTask_observed foundCount _ _ _ _ I) as (d & _ & E).
  unfold foundCounts. rewrite E, scanTransactions_observed, K by reflexivity.
  assert (forall l, flat_map (fun tx =>
            flat_map foundCount (events (scanCandidate ctx order oid tx))) l = []) as N.
  { induction l as [ | tx l IH]; simpl; [reflexivity | ].
    rewrite IH, app_nil_r. apply scanCandidate_foundCounts. }
  rewrite N. reflexivity.
Qed.

Lemma candidates_are_scanned_or_ignored_witness :
  scannedHashes (events (orderTask
    (Scenario.contextWith (Scenario.feedOf Scenario.endToEnd) (Ok true)) "order-1"))
  = ["0xe1200"; "0xe1300"]
  /\ ignoredHashes (events (orderTask
    (Scenario.contextWith (Scenario.feedOf Scenario.endToEnd) (Ok true)) "order-1"))
  = ["0xe900"].
Proof.
  pose proof (candidates_are_scanned_or_ignored
    (Scenario.contextWith (Scenario.feedOf Scenario.endToEnd) (Ok true)) "order-1"
    Scenario.theOrder Scenario.endToEnd
    (filter valuePositive Scenario.endToEnd) eq_refl eq_refl) as (_ & S & G & _).
  split; [exact S | exact G].
Defined.

(** Reading a run of decimal digits, on top of what was read before. *)
Lemma readDigits_acc d : forall acc n,
  Js.readDigits 10 (Z.pos acc) n (DecimalString.NilEmpty.string_of_uint d) =
  (Z.pos (Pos.of_uint_acc d acc), (n + Decimal.nb_digits d)%nat, "").
Proof.
  induction d as [ | d IH | d IH | d IH | d IH | d IH | d IH | d IH | d IH | d IH | d IH];
    intros acc n;
    [ cbn; now rewrite Nat.add_0_r | .. ];
    cbn [DecimalString.NilEmpty.string_of_uint Js.readDigits Pos.of_uint_acc Decimal.nb_digits];
    match goal with
    | |- context [Js.digitValue 10 ?c] =>
        let v := eval vm_compute in (Js.digitValue 10 c) in
        change (Js.digitValue 10 c) with v
    end; cbv iota beta;
    match goal with
    | |- Js.readDigits 10 ?a _ _ = (Z.pos (Pos.of_uint_acc _ ?b), _, _) =>
        replace a with (Z.pos b) by lia
    end; rewrite IH; f_equal; f_equal; lia.
Qed.

Lemma readDigits_zero d : forall n,
  Js.readDigits 10 0 n (DecimalString.NilEmpty.string_of_uint d) =
  (Z.of_N (Pos.of_uint d), (n + Decimal.nb_digits d)%nat, "").
Proof.
  induction d as [ | d IH | d IH | d IH | d IH | d IH | d IH | d IH | d IH | d IH | d IH];
    intros n;
    [ cbn; now rewrite Nat.add_0_r | .. ];
    cbn [DecimalString.NilEmpty.string_of_uint Js.readDigits Pos.of_uint Decimal.nb_digits];
    match goal with
    | |- context [Js.digitValue 10 ?c] =>
        let v := eval vm_compute in (Js.digitValue 10 c) in
        change (Js.digitValue 10 c) with v
    end; cbv iota beta.
  - change (0 * 10 + 0) with 0. rewrite IH. f_equal. f_equal. lia.
  - change (0 * 10 + 1) with (Z.pos 1). rewrite readDigits_acc. f_equal. f_equal. lia.
  - change (0 * 10 + 2) with (Z.pos 2). rewrite readDigits_acc. f_equal. f_equal. lia.
  - change (0 * 10 + 3) with (Z.pos 3). rewrite readDigits_acc. f_equal. f_equal. lia.
  - change (0 * 10 + 4) with (Z.pos 4). rewrite readDigits_acc. f_equal. f_equal. lia.
  - change (0 * 10 + 5) with (Z.pos 5). rewrite readDigits_acc. f_equal. f_equal. lia.
  - change (0 * 10 + 6) with (Z.pos 6). rewrite readDigits_acc. f_equal. f_equal. lia.
  - change (0 * 10 + 7) with (Z.pos 7). rewrite readDigits_acc. f_equal. f_equal. lia.
  - change (0 * 10 + 8) with (Z.pos 8). rewrite readDigits_acc. f_equal. f_equal. lia.
  - change (0 * 10 + 9) with (Z.pos 9). rewrite readDigits_acc. f_equal. f_equal. lia.
Qed.

Lemma trimEnd_digits d :
  Js.trimEnd (DecimalString.NilEmpty.string_of_uint d) = DecimalString.NilEmpty.string_of_uint d.
Proof.
  induction d; cbn [DecimalString.NilEmpty.string_of_uint Js.trimEnd]; try reflexivity;
    rewrite IHd; now destruct (DecimalString.NilEmpty.string_of_uint d).
Qed.

Lemma Number_digits d :
  d <> Decimal.Nil ->
  Js.Number (DecimalString.NilEmpty.string_of_uint d) = Js.ofZ (Z.of_N (Pos.of_uint d)).
Proof.
  intros H. unfold Js.Number.
  assert (Js.trimStart (DecimalString.NilEmpty.string_of_uint d) = DecimalString.NilEmpty.string_of_uint d) as ->.
  { now destruct d. }
  rewrite trimEnd_digits.
  assert (Js.nonDecimal (DecimalString.NilEmpty.string_of_uint d) = None) as N.
  { destruct d; try reflexivity. now destruct d. }
  assert (Js.unsignedDecimal (DecimalString.NilEmpty.string_of_uint d) = Js.ofZ (Z.of_N (Pos.of_uint d))) as U.
  { unfold Js.unsignedDecimal.
    assert (String.eqb (DecimalString.NilEmpty.string_of_uint d) "Infinity" = false) as -> by now destruct d.
    rewrite readDigits_zero. cbv iota beta.
    assert (exists k, (0 + Decimal.nb_digits d + 0)%nat = S k) as (k & ->).
    { destruct d; [contradiction | ..]; now eexists. }
    cbn [Js.exponentPart]. unfold Js.scale, Js.ofZ. cbn. now rewrite Z.mul_1_r. }
  rewrite N. destruct d; [contradiction | ..]; cbv zeta; cbn [DecimalString.NilEmpty.string_of_uint] in *;
    cbn [Ascii.eqb Bool.eqb]; exact U.
Qed.

(** Reading back the numeral of a number of seconds. *)
Lemma Number_of_numeral (seconds : Z) :
  0 <= seconds -> Js.Number (Ethers.string_of_Z seconds) = Js.ofZ seconds.
Proof.
  intros H. destruct seconds as [ | p | p]; [reflexivity | | lia].
  unfold Ethers.string_of_Z. cbn [Z.to_int DecimalString.NilZero.string_of_int].
  pose proof (DecimalPos.Unsigned.to_uint_nonnil p) as N.
  unfold DecimalString.NilZero.string_of_uint.
  destruct (Pos.to_uint p) as [ | d | d | d | d | d | d | d | d | d | d] eqn:U;
    [contradiction | ..];
    rewrite Number_digits by discriminate;
    rewrite <- U, DecimalPos.Unsigned.of_to; reflexivity.
Qed.

Lemma beforeOrder_seconds order tx seconds :
  Js.Number (timeStamp tx) = Js.ofZ seconds ->
  beforeOrder order tx = (seconds * 1000 <? createdAt order).
Proof.
  unfold beforeOrder. intros ->. unfold Js.lt, Js.mul, Js.ofZ. simpl.
  now rewrite !Z.mul_1_r.
Qed.

(** X11.  For a time stamp written as the decimal numeral of a number of
    seconds, a candidate is set aside exactly when those seconds, in
    milliseconds, lie strictly before the creation of the order.  A
    transaction of the very millisecond of the creation is scanned; one of
    the same second as an order created later within that second is set
    aside. *)
Theorem time_rule_on_numerals ctx order oid tx seconds :
  0 <= seconds ->
  timeStamp tx = Ethers.string_of_Z seconds ->
  beforeOrder order tx = (seconds * 1000 <? createdAt order)
  /\ (seconds * 1000 < createdAt order ->
      scanCandidate ctx order oid tx =
      ([Log Warn "Ignoring tx %s that happened before order %s was created" [hash tx; oid]],
       Ok tt))
  /\ (createdAt order <= seconds * 1000 ->
      scannedHashes (events (scanCandidate ctx order oid tx)) = [hash tx]).
Proof.
  intros P T.
  assert (beforeOrder order tx = (seconds * 1000 <? createdAt order)) as B.
  { apply beforeOrder_seconds. rewrite T. now apply Number_of_numeral. }
  split; [exact B | ]. split.
  - intros L. apply Z.ltb_lt in L. unfold scanCandidate. now rewrite B, L.
  - intros L. apply Z.ltb_ge in L. rewrite scanCandidate_scannedHashes. now rewrite B, L.
Qed.

Lemma time_rule_on_numerals_witness :
  scannedHashes (events (scanCandidate
    (Scenario.contextWith (Scenario.feedOf []) (Ok true)) Scenario.theOrder "order-1"
    (Scenario.mkTx "0xedge" Scenario.theAccount "1" "1000" "10" "21000"))) = ["0xedge"].
Proof.
  refine (proj2 (proj2 (time_rule_on_numerals
    (Scenario.contextWith (Scenario.feedOf []) (Ok true)) Scenario.theOrder "order-1"
    (Scenario.mkTx "0xedge" Scenario.theAccount "1" "1000" "10" "21000") 1000 _ _)) _).
  - lia.
  - reflexivity.
  - simpl. lia.
Defined.

(** ** From the feed to the ledger *)

(** Where a request of a task comes from. *)
Lemma orderTask_credit_inv ctx oid req :
  In req (creditCalls (events (orderTask ctx oid))) ->
  exists order txs tx totalAsEther,
    taskInput ctx oid = Some (order, txs) /\
    In tx (firstn 10 (filter valuePositive txs)) /\
    beforeOrder order tx = false /\
    sweepToAccount ctx tx = true /\
    Ethers.formatEther (settlementTotal tx) = Ok totalAsEther /\
    req = requestFor ctx tx oid totalAsEther.
Proof.
  rewrite orderTask_creditCalls.
  destruct (taskInput ctx oid) as [[order txs] | ]; [ | contradiction].
  rewrite scanTransactions_creditCalls.
  destruct (filterM hasValue txs) as [kept | e] eqn:K; [ | contradiction].
  apply filterM_hasValue_ok in K. subst kept.
  intros H. apply in_flat_map in H as (tx & I & H).
  rewrite scanCandidate_creditCalls_rules in H.
  destruct (negb (beforeOrder order tx) && sweepToAccount ctx tx)%bool eqn:R;
    [ | contradiction].
  apply andb_prop in R as [B S]. apply negb_true_iff in B.
  apply scanTxId_credit_inv in H as (_ & _ & ve & te & _ & T & ->).
  now exists order, txs, tx, te.
Qed.

Lemma valuePositive_renders tx :
  valuePositive tx = true -> exists valueAsEther, Ethers.formatEther (value tx) = Ok valueAsEther.
Proof.
  unfold valuePositive, Ethers.formatEther.
  destruct (Ethers.BigNumber_from (value tx)) as [v | e]; [ | discriminate].
  intros _. now eexists.
Qed.

(** X12.  No eligible candidate is passed over.  A transaction among the
    first ten with a positive value, not older than the order, sent to the
    account, with a gas price and a total that renders, has its request sent
    to the ledger by the task: for the order of the task, the hash of the
    transaction and the rendered total. *)
Theorem eligible_candidate_is_credited ctx oid order txs tx totalAsEther :
  taskInput ctx oid = Some (order, txs) ->
  Forall (fun t => is_ok (hasValue t) = true) txs ->
  In tx (firstn 10 (filter valuePositive txs)) ->
  beforeOrder order tx = false ->
  sweepToAccount ctx tx = true ->
  Js.truthy (gasPrice tx) = true ->
  Ethers.formatEther (settlementTotal tx) = Ok totalAsEther ->
  In {| orderId := oid; txid := hash tx; amount := totalAsEther;
        uniqueId := getEthereumNativeDepositUniqueId ctx (nativeMethod ctx) (hash tx) |}
     (creditCalls (events (orderTask ctx oid))).
Proof.
  intros I V M B S G T.
  rewrite orderTask_creditCalls, I, scanTransactions_creditCalls.
  rewrite (filterM_hasValue_total _ V).
  apply in_flat_map. exists tx. split; [exact M | ].
  rewrite scanCandidate_creditCalls_rules, B, S. simpl.
  rewrite scanTxId_creditCalls, S, G. simpl.
  apply In_firstn, filter_In in M as [_ P].
  destruct (valuePositive_renders _ P) as (ve & ->). rewrite T. now left.
Qed.

Lemma eligible_candidate_is_credited_witness :
  In {| orderId := "order-1"; txid := "0xe1300"; amount := "0.0000000000000425";
        uniqueId := "ethereum-native/0xe1300" |}
     (creditCalls (events (orderTask
        (Scenario.contextWith (Scenario.feedOf Scenario.endToEnd) (Ok false)) "order-1"))).
Proof.
  refine (eligible_candidate_is_credited
    (Scenario.contextWith (Scenario.feedOf Scenario.endToEnd) (Ok false)) "order-1"
    Scenario.theOrder Scenario.endToEnd
    (Scenario.mkTx "0xe1300" Scenario.theAccount "500" "1300" "2" "21000")
    "0.0000000000000425" _ _ _ _ _ _ _).
  - vm_compute. reflexivity.
  - unfold Scenario.endToEnd.
    repeat (apply Forall_cons; [vm_compute; reflexivity | ]). apply Forall_nil.
  - vm_compute. right. right. left. reflexivity.
  - vm_compute. reflexivity.
  - vm_compute. reflexivity.
  - reflexivity.
  - vm_compute. reflexivity.
Defined.

(** X13.  What a task sends to the ledger does not depend on what the
    ledger answers: with another ledger behind the client the same requests
    go out, in the same order, and the same transactions are scanned.  A
    task run again after any outcome sends again the requests it sent
    before; only the ledger tells a new deposit from a known one. *)
Theorem requests_do_not_depend_on_the_ledger ctx ledger oid :
  creditCalls (events (orderTask (withLedger ctx ledger) oid)) =
    creditCalls (events (orderTask ctx oid))
  /\ scannedHashes (events (orderTask (withLedger ctx ledger) oid)) =
       scannedHashes (events (orderTask ctx oid))
  /\ httpRequests (events (orderTask (withLedger ctx ledger) oid)) =
       httpRequests (events (orderTask ctx oid)).
Proof.
  assert (taskInput (withLedger ctx ledger) oid = taskInput ctx oid) as I by reflexivity.
  split; [ | split].
  - rewrite !orderTask_creditCalls, I.
    destruct (taskInput ctx oid) as [[order txs] | ]; [ | reflexivity].
    rewrite !scanTransactions_creditCalls.
    destruct (filterM hasValue txs) as [kept | e]; [ | reflexivity].
    apply flat_map_agree. intros tx _.
    rewrite !scanCandidate_creditCalls, !scanTxId_creditCalls. reflexivity.
  - rewrite !orderTask_scannedHashes, I.
    destruct (taskInput ctx oid) as [[order txs] | ]; [ | reflexivity].
    rewrite !scanTransactions_scannedHashes.
    destruct (filterM hasValue txs) as [kept | e]; [ | reflexivity].
    apply flat_map_agree. intros tx _.
    now rewrite !scanCandidate_scannedHashes.
  - now rewrite !orderTask_httpRequests.
Qed.

Lemma requests_do_not_depend_on_the_ledger_witness :
  creditCalls (events (orderTask
    (withLedger (Scenario.contextWith (Scenario.feedOf Scenario.endToEnd) (Ok true))
                (fun _ => Err "ledger is down"))
    "order-1"))
  = [{| orderId := "order-1"; txid := "0xe1300"; amount := "0.0000000000000425";
        uniqueId := "ethereum-native/0xe1300" |}].
Proof.
  exact (proj1 (requests_do_not_depend_on_the_ledger
    (Scenario.contextWith (Scenario.feedOf Scenario.endToEnd) (Ok true))
    (fun _ => Err "ledger is down") "order-1")).
Defined.

(** A decimal numeral has no hexadecimal reading. *)
Lemma hex_of_digits d :
  Ethers.hex_of_string (DecimalString.NilEmpty.string_of_uint d) = None.
Proof.
  destruct d as [ | d | d | d | d | d | d | d | d | d | d]; try reflexivity;
    destruct d; reflexivity.
Qed.

Lemma hex_of_numeral d :
  Ethers.hex_of_string (DecimalString.NilZero.string_of_int d) = None.
Proof.
  destruct d as [d | d]; simpl.
  - destruct d; try reflexivity; apply (hex_of_digits (_ _)).
  - unfold DecimalString.NilZero.string_of_uint.
    destruct d as [ | d | d | d | d | d | d | d | d | d | d]; try reflexivity;
      destruct d; reflexivity.
Qed.

Lemma BigNumber_from_decimal s z :
  Ethers.decimal_of_string s = Some z -> Ethers.BigNumber_from s = Ok z.
Proof.
  unfold Ethers.BigNumber_from. intros H. rewrite H.
  unfold Ethers.decimal_of_string in H.
  destruct (DecimalString.NilZero.int_of_string s) as [d | ] eqn:D; [ | discriminate].
  apply DecimalString.NilZero.sis in D. subst s. now rewrite hex_of_numeral.
Qed.

(** X15.  On values written as decimal numerals the filter never fails, and
    it keeps a transaction exactly when the number is strictly positive: a
    value of zero, like a negative one, is dropped silently. *)
Theorem value_filter_on_numerals txs :
  Forall (fun tx => exists v, Ethers.decimal_of_string (value tx) = Some v) txs ->
  filterM hasValue txs = Ok (filter valuePositive txs)
  /\ forall tx v,
       In tx txs -> Ethers.decimal_of_string (value tx) = Some v ->
       (In tx (filter valuePositive txs) <-> 0 < v).
Proof.
  intros D. split.
  - apply filterM_hasValue_total. revert D. apply Forall_impl.
    intros tx (v & V). unfold hasValue. now rewrite (BigNumber_from_decimal _ _ V).
  - intros tx v I V. rewrite filter_In. unfold valuePositive.
    rewrite (BigNumber_from_decimal _ _ V), Z.ltb_lt. tauto.
Qed.

Lemma value_filter_on_numerals_witness :
  filterM hasValue Scenario.endToEnd = Ok (filter valuePositive Scenario.endToEnd).
Proof.
  refine (proj1 (value_filter_on_numerals Scenario.endToEnd _)).
  repeat constructor; eexists; vm_compute; reflexivity.
Defined.

(** ** The whole worker *)

Lemma queue_run_creditCalls deliveries handler req :
  In req (creditCalls (fst (queue_run deliveries handler))) ->
  exists delivered, In delivered deliveries /\
                    In req (creditCalls (events (handler delivered))).
Proof.
  unfold queue_run. cbn [fst]. unfold creditCalls at 1.
  rewrite flat_map_flat_map. intros H.
  apply in_flat_map in H as (m & M & H). apply in_map_iff in M as (d & <- & D).
  now exists d.
Qed.

(** X16.  The worker does nothing without a key for the provider: it logs
    that Etherscan is not configured and takes no task.  With a key, every
    request it sends to the ledger is for an order id that the queue
    delivered, whose order exists and has a deposit address. *)
Theorem worker_credits_delivered_orders_only ctx deliveries :
  (Js.truthy (etherscanApiKey ctx) = false ->
   runConfirmedNativeTokenExtraWorker ctx deliveries =
   ([Log Error "Etherscan not configured" []], []))
  /\ (forall req,
        In req (creditCalls (fst (runConfirmedNativeTokenExtraWorker ctx deliveries))) ->
        Js.truthy (etherscanApiKey ctx) = true /\
        In (orderId req) deliveries /\
        exists order deposit,
          findOneBy ctx (orderId req) = Some order /\
          depositAddress order = Some deposit).
Proof.
  unfold runConfirmedNativeTokenExtraWorker, runScanByOrderId. split.
  - now intros ->.
  - intros req. destruct (Js.truthy (etherscanApiKey ctx)); simpl; [ | contradiction].
    intros H. apply queue_run_creditCalls in H as (oid & D & H).
    apply orderTask_credit_inv in H as (order & txs & tx & te & I & _ & _ & _ & _ & ->).
    simpl. split; [reflexivity | ]. split; [exact D | ].
    destruct (orderTask_with_input _ _ _ _ I) as (deposit & Dep & _).
    exists order, deposit. split; [ | exact Dep].
    unfold taskInput in I. destruct (findOneBy ctx oid) as [o | ]; [ | discriminate].
    destruct (depositAddress o); [ | discriminate].
    destruct (outcome _); [ | discriminate]. now injection I as -> _.
Qed.

Lemma worker_credits_delivered_orders_only_witness :
  In "order-1" ["order-7"; "order-1"].
Proof.
  refine (proj1 (proj2 (proj2 (worker_credits_delivered_orders_only
    (Scenario.contextWith (Scenario.feedOf Scenario.endToEnd) (Ok true))
    ["order-7"; "order-1"]) 
    {| orderId := "order-1"; txid := "0xe1300"; amount := "0.0000000000000425";
       uniqueId := "ethereum-native/0xe1300" |} _))).
  vm_compute. left. reflexivity.
Defined.
